(** * Greedy routing on ring, torus and star networks

    A shallow embedding of [complex_topologies.py]: the three distance
    metrics, the two greedy selectors with their in-place tie-break
    filtering, the path score, and the six [route_packet] strategies,
    and of [read_packet_csv] of [plotting_and_run_examples.py], followed by
    the properties that hold on this code and the inputs on which it departs
    from its documentation. *)

From Stdlib Require Import ZArith Lia DecimalString.
From stdpp Require Import base option list gmap fin_maps strings.

Local Open Scope Z_scope.

(** ** Python values and failures *)

(** The exceptions the modelled code can raise.  [ContractError] is the
    failure python_ta's [check_contracts] decorator raises when a docstring
    precondition that is a Python expression evaluates to false. *)
Inductive PyError : Type :=
  | IndexError
  | KeyError
  | ValueError
  | ContractError.

Inductive Result (A : Type) : Type :=
  | Return (a : A)
  | Raise (e : PyError).
Arguments Return {A} a.
Arguments Raise {A} e.

#[global] Instance PyError_eq_dec : EqDecision PyError.
Proof. solve_decision. Defined.

#[global] Instance Result_eq_dec `{EqDecision A} : EqDecision (Result A).
Proof. solve_decision. Defined.

#[global] Instance Result_ret : MRet Result := @Return.
#[global] Instance Result_bind : MBind Result := fun A B f m =>
  match m with
  | Return a => f a
  | Raise e => Raise e
  end.

(** A precondition checked on entry. *)
Definition require (b : bool) : Result unit :=
  if b then Return tt else Raise ContractError.

(** [d[key]] on a dict. *)
Definition getkey `{Lookup K V M} (d : M) (key : K) : Result V :=
  match d !! key with
  | Some v => Return v
  | None => Raise KeyError
  end.

(** [l[i]] on a list, with Python's negative indices. *)
Definition getitem {A} (l : list A) (i : Z) : Result A :=
  let n := Z.of_nat (length l) in
  let j := if decide (i < 0) then i + n else i in
  if decide (0 <= j < n) then
    match l !! Z.to_nat j with
    | Some x => Return x
    | None => Raise IndexError
    end
  else Raise IndexError.

(** ** The network, as the strategies see it *)

(** A node's [channels] is a dict from neighbour address to channel; its
    iteration order is its insertion order, so it is kept as an
    association list. *)
Record Node (Address Channel : Type) : Type := mkNode {
  address : Address;
  channels : list (Address * Channel)
}.
Arguments mkNode {Address Channel} address channels.
Arguments address {Address Channel} n.
Arguments channels {Address Channel} n.

Record Packet (Address : Type) : Type := mkPacket {
  identifier : Z;
  source : Address;
  destination : Address
}.
Arguments mkPacket {Address} identifier source destination.
Arguments identifier {Address} p.
Arguments source {Address} p.
Arguments destination {Address} p.

(** [node.channels[a]]: the first (only) entry with key [a]. *)
#[global] Instance assoc_lookup `{EqDecision K} {V} : Lookup K V (list (K * V)) :=
  fun key d => (fun r => r.2.2) <$> list_find (fun kv => kv.1 = key) d.

(** [a in self._nodes] *)
Definition contains `{Countable K} {V} (d : gmap K V) (a : K) : bool :=
  bool_decide (is_Some (d !! a)).

(** [for x in l: body] over a list that the body does not touch. *)
Fixpoint for_in {A Acc} (l : list A) (body : Acc -> A -> Result Acc) (acc : Acc)
  : Result Acc :=
  match l with
  | [] => Return acc
  | x :: l' => acc' ← body acc x; for_in l' body acc'
  end.

(** ** Code that mutates a list it was handed

    [greedy_channel_select] and [greedy_path_select] work on the list object
    they are passed: the state of that object is threaded through, next to
    the value or exception of each step. *)
Definition Py (S A : Type) : Type := S -> Result A * S.

#[global] Instance Py_ret {S} : MRet (Py S) := fun A a s => (Return a, s).
#[global] Instance Py_bind {S} : MBind (Py S) := fun A B f m s =>
  match m s with
  | (Return a, s') => f a s'
  | (Raise e, s') => (Raise e, s')
  end.

(** A step that does not touch the list. *)
Definition lift {S A} (r : Result A) : Py S A := fun s => (r, s).

(** [l.remove(x)]: drop the first element equal to [x], [ValueError] when
    there is none. *)
Fixpoint remove_first `{EqDecision A} (x : A) (l : list A) : option (list A) :=
  match l with
  | [] => None
  | y :: l' => if decide (x = y) then Some l'
               else (fun r => y :: r) <$> remove_first x l'
  end.

Section ListObject.
Context {T : Type} `{EqDecision T}.

Definition py_len : Py (list T) Z := fun l => (Return (Z.of_nat (length l)), l).

Definition py_getitem (i : Z) : Py (list T) T := fun l => (getitem l i, l).

Definition py_remove (x : T) : Py (list T) unit := fun l =>
  match remove_first x l with
  | Some l' => (Return tt, l')
  | None => (Raise ValueError, l)
  end.

(** [for x in l: body], on the list object itself: the iterator keeps an
    index, re-reads the list at every step and stops once the index has
    reached its current length.  [acc] carries the local variables the
    body assigns.  No body here lengthens the list, so the loop makes at
    most as many steps as the list has elements when it starts. *)
Fixpoint for_each_from {Acc} (body : Acc -> T -> Py (list T) Acc)
    (fuel i : nat) (acc : Acc) : Py (list T) Acc := fun l =>
  match fuel with
  | O => (Return acc, l)
  | S fuel' =>
      match l !! i with
      | None => (Return acc, l)
      | Some x =>
          match body acc x l with
          | (Return acc', l') => for_each_from body fuel' (S i) acc' l'
          | (Raise e, l') => (Raise e, l')
          end
      end
  end.

Definition for_each {Acc} (body : Acc -> T -> Py (list T) Acc) (acc : Acc)
  : Py (list T) Acc := fun l => for_each_from body (length l) 0 acc l.
End ListObject.

(** ** The selectors *)

Section Selectors.
Context {Channel : Type} `{EqDecision Channel}.
(** [channel.total_occupancy()], as read at decision time. *)
Variable total_occupancy : Channel -> Z.
(** [random.randint(a, b)]: the draw made by this call. *)
Variable randint : Z -> Z -> Z.

Definition compute_path_score (path : list Channel) : Result Z :=
  require (bool_decide (path ≠ [])) ;;
  let score := 0 in
  let k := Z.of_nat (length path) in
  let score :=
    foldl (fun score '(i, c) => score + Z.max (total_occupancy c - Z.of_nat i) 0)
          score (imap pair path) in
  Return (k + score).

Definition greedy_channel_select : Py (list (Z * Channel)) Channel :=
  channels ← (fun l => (Return l, l));
  lift (require (bool_decide (channels ≠ []))) ;;
  lift (require (forallb (fun tup => bool_decide (tup.1 >= 0)) channels)) ;;
  t0 ← py_getitem 0;
  let min_dist := t0.1 in
  let min_score := min_dist + total_occupancy t0.2 in
  '(min_score, min_dist) ←
    for_each (fun '(min_score, min_dist) '(d, channel) =>
                let channel_occupancy := total_occupancy channel in
                let score := d + channel_occupancy in
                if decide (score < min_score) then
                  if decide (d < min_dist) then mret (score, d)
                  else mret (score, min_dist)
                else mret (min_score, min_dist))
             (min_score, min_dist);
  for_each (fun _ '(d, c) =>
              let score := d + total_occupancy c in
              if decide (score ≠ min_score) then py_remove (d, c)
              else mret tt) tt ;;
  n ← py_len;
  (if decide (n > 1) then
     for_each (fun _ '(d, c) =>
                 if decide (d ≠ min_dist) then py_remove (d, c)
                 else mret tt) tt
   else mret tt) ;;
  n ← py_len;
  if decide (n > 1) then
    let index := randint 0 n in
    t ← py_getitem index;
    mret t.2
  else
    t ← py_getitem 0;
    mret t.2.

Definition greedy_path_select : Py (list (list Channel)) Channel :=
  paths ← (fun l => (Return l, l));
  lift (require (bool_decide (paths ≠ []))) ;;
  p0 ← py_getitem 0;
  let min_len := Z.of_nat (length p0) in
  min_score ← lift (compute_path_score p0);
  '(min_score, min_len) ←
    for_each (fun '(min_score, min_len) p =>
                score ← lift (compute_path_score p);
                let length_ := Z.of_nat (length p) in
                if decide (score < min_score) then
                  if decide (length_ < min_len) then mret (score, length_)
                  else mret (score, min_len)
                else mret (min_score, min_len))
             (min_score, min_len);
  for_each (fun _ p =>
              score ← lift (compute_path_score p);
              if decide (score ≠ min_score) then py_remove p
              else mret tt) tt ;;
  n ← py_len;
  (if decide (n > 1) then
     for_each (fun _ p =>
                 if decide (Z.of_nat (length p) ≠ min_len) then py_remove p
                 else mret tt) tt
   else mret tt) ;;
  n ← py_len;
  if decide (n > 1) then
    let index := randint 0 n in
    p ← py_getitem index;
    lift (getitem p 0)
  else
    p ← py_getitem 0;
    lift (getitem p 0).
End Selectors.

(** ** The strategies

    The three greedy-channel classes share one [route_packet] body, which
    differs only in the [get_distance] of its class, and so do the three
    greedy-path classes, which call the [find_paths] they inherit. *)

Section Strategies.
Context {Address : Type} `{Countable Address}.
Context {Channel : Type} `{EqDecision Channel}.
Variable total_occupancy : Channel -> Z.
Variable randint : Z -> Z -> Z.
Variable _nodes : gmap Address (Node Address Channel).

Definition greedy_channel_route_packet
    (get_distance : Address -> Address -> Result Z)
    (current_address : Address) (packet : Packet Address)
  : Result (option Channel) :=
  require (contains _nodes current_address) ;;
  require (contains _nodes (source packet)) ;;
  require (contains _nodes (destination packet)) ;;
  let dest := destination packet in
  if decide (current_address = dest) then Return None
  else
    curr_node ← getkey _nodes current_address;
    let neighbour_add := (channels curr_node).*1 in
    channels_lst ←
      for_in neighbour_add
        (fun channels_lst address =>
           node ← getkey _nodes address;
           channel ← getkey (channels node) current_address;
           d ← get_distance address dest;
           Return (channels_lst ++ [(d, channel)])) [];
    channel ← (greedy_channel_select total_occupancy randint channels_lst).1;
    Return (Some channel).

(** [find_paths] is inherited from the abstract network classes, which
    are not among the sources; it hands over a list of paths. *)
Definition greedy_path_route_packet
    (find_paths : Address -> Address -> Result (list (list Channel)))
    (current_address : Address) (packet : Packet Address)
  : Result (option Channel) :=
  require (contains _nodes current_address) ;;
  require (contains _nodes (source packet)) ;;
  require (contains _nodes (destination packet)) ;;
  let dest := destination packet in
  if decide (current_address = dest) then Return None
  else
    channels_lst ← find_paths current_address dest;
    channel ← (greedy_path_select total_occupancy randint channels_lst).1;
    Return (Some channel).
End Strategies.

(** ** Ring *)

Module GreedyChannelRing.
Section Ring.
Context {Channel : Type} `{EqDecision Channel}.
Variable total_occupancy : Channel -> Z.
Variable randint : Z -> Z -> Z.
(** [self._nodes] of a ring: addresses are integers. *)
Variable _nodes : gmap Z (Node Z Channel).

Definition get_distance (n1 n2 : Z) : Result Z :=
  require (contains _nodes n1) ;;
  require (contains _nodes n2) ;;
  let k := Z.of_nat (size _nodes) in
  if decide (n1 = n2) then Return 0
  else
    let '(left_dist, right_dist) :=
      if decide (n2 > n1) then (k - (n2 - n1), n2 - n1)
      else (n2 - n1, k - (n2 - n1)) in
    if decide (left_dist >= right_dist) then Return right_dist
    else Return left_dist.

Definition route_packet (current_address : Z) (packet : Packet Z)
  : Result (option Channel) :=
  greedy_channel_route_packet total_occupancy randint _nodes
    get_distance current_address packet.
End Ring.
End GreedyChannelRing.

(** ** Torus *)

Module GreedyChannelTorus.
Section Torus.
Context {Channel : Type} `{EqDecision Channel}.
Variable total_occupancy : Channel -> Z.
Variable randint : Z -> Z -> Z.
(** [self._nodes] of a torus: addresses are coordinate pairs. *)
Variable _nodes : gmap (Z * Z) (Node (Z * Z) Channel).

Definition get_ring_distance (n1 n2 : Z) : Z :=
  let k := Z.of_nat (size _nodes) in
  if decide (n1 = n2) then 0
  else
    let '(left_dist, right_dist) :=
      if decide (n2 > n1) then (Z.abs (k - (n2 - n1)), Z.abs (n2 - n1))
      else (Z.abs (n2 - n1), Z.abs (k - (n2 - n1))) in
    if decide (left_dist >= right_dist) then right_dist
    else left_dist.

Definition get_distance (n1 n2 : Z * Z) : Result Z :=
  require (contains _nodes n1) ;;
  require (contains _nodes n2) ;;
  let '(x_s, y_s) := n1 in
  let '(x_d, y_d) := n2 in
  let x_dist := get_ring_distance x_s x_d in
  let y_dist := get_ring_distance y_s y_d in
  Return (x_dist + y_dist).

Definition route_packet (current_address : Z * Z) (packet : Packet (Z * Z))
  : Result (option Channel) :=
  greedy_channel_route_packet total_occupancy randint _nodes
    get_distance current_address packet.
End Torus.
End GreedyChannelTorus.

(** ** Star *)

Module GreedyChannelStar.
Section Star.
Context {Channel : Type} `{EqDecision Channel}.
Variable total_occupancy : Channel -> Z.
Variable randint : Z -> Z -> Z.
Variable _nodes : gmap Z (Node Z Channel).

(** The counting loop over [self._nodes.values()]. *)
Definition count_central : Z :=
  let length_ := Z.of_nat (size _nodes) in
  map_fold (fun _ node k1 =>
              if decide (Z.of_nat (length (channels node)) = length_ - 1)
              then k1 + 1 else k1) 0 _nodes.

(** [n in range(k1)] *)
Definition in_range (k1 n : Z) : bool := bool_decide (0 <= n < k1).

Definition get_distance (n1 n2 : Z) : Result Z :=
  require (contains _nodes n1) ;;
  require (contains _nodes n2) ;;
  let k1 := count_central in
  if decide (n1 = n2) then Return 0
  else if in_range k1 n2 || in_range k1 n1 then Return 1
  else Return 2.

Definition route_packet (current_address : Z) (packet : Packet Z)
  : Result (option Channel) :=
  greedy_channel_route_packet total_occupancy randint _nodes
    get_distance current_address packet.

(** The spec's reading of a hub: a node whose channel count equals the
    total node count minus one. *)
Definition is_hub (a : Z) : bool :=
  match _nodes !! a with
  | Some node =>
      bool_decide (Z.of_nat (length (channels node)) = Z.of_nat (size _nodes) - 1)
  | None => false
  end.
End Star.
End GreedyChannelStar.

(** ** The greedy-path classes *)

Module GreedyPathRing.
Section Ring.
Context {Channel : Type} `{EqDecision Channel}.
Variable total_occupancy : Channel -> Z.
Variable randint : Z -> Z -> Z.
Variable _nodes : gmap Z (Node Z Channel).
Variable find_paths : Z -> Z -> Result (list (list Channel)).

Definition route_packet (current_address : Z) (packet : Packet Z)
  : Result (option Channel) :=
  greedy_path_route_packet total_occupancy randint _nodes
    find_paths current_address packet.
End Ring.
End GreedyPathRing.

Module GreedyPathTorus.
Section Torus.
Context {Channel : Type} `{EqDecision Channel}.
Variable total_occupancy : Channel -> Z.
Variable randint : Z -> Z -> Z.
Variable _nodes : gmap (Z * Z) (Node (Z * Z) Channel).
Variable find_paths : Z * Z -> Z * Z -> Result (list (list Channel)).

Definition route_packet (current_address : Z * Z) (packet : Packet (Z * Z))
  : Result (option Channel) :=
  greedy_path_route_packet total_occupancy randint _nodes
    find_paths current_address packet.
End Torus.
End GreedyPathTorus.

Module GreedyPathStar.
Section Star.
Context {Channel : Type} `{EqDecision Channel}.
Variable total_occupancy : Channel -> Z.
Variable randint : Z -> Z -> Z.
Variable _nodes : gmap Z (Node Z Channel).
Variable find_paths : Z -> Z -> Result (list (list Channel)).

Definition route_packet (current_address : Z) (packet : Packet Z)
  : Result (option Channel) :=
  greedy_path_route_packet total_occupancy randint _nodes
    find_paths current_address packet.
End Star.
End GreedyPathStar.

(** ** Reading a packet file

    [read_packet_csv] of [plotting_and_run_examples.py], on the content of
    the file it opens: [header] holds the fields of the first line, as
    [strip().split(',')] leaves them, and [reader] the rows that
    [csv.reader] yields for the lines after it, a blank line giving the
    empty row. *)

(** A node address is an [int] on rings and stars, a pair on a torus. *)
Inductive NodeAddress : Type :=
  | ring_address (n : Z)
  | torus_address (x y : Z).

#[global] Instance NodeAddress_eq_dec : EqDecision NodeAddress.
Proof. solve_decision. Defined.

Definition star_types : list string :=
  ["ShortestPathStar"; "GreedyChannelStar"; "GreedyPathStar"]%string.

Definition torus_types : list string :=
  ["ShortestPathTorus"; "GreedyChannelTorus"; "GreedyPathTorus"]%string.

(** The names with a branch of their own among the one-argument classes. *)
Definition ring_torus_types : list string :=
  ["AlwaysRightRing"; "ShortestPathRing"; "ShortestPathTorus"; "GreedyChannelRing";
   "GreedyChannelTorus"; "GreedyPathRing"; "GreedyPathTorus"]%string.

Section ReadPacketCsv.
Context {Network : Type}.
(** The value of [int(s)] on the strings it accepts. *)
Variable int_value : string -> option Z.
(** [Cls(args)] for the network class of the given name. *)
Variable new : string -> list Z -> Result Network.

Definition int (s : string) : Result Z :=
  match int_value s with
  | Some n => Return n
  | None => Raise ValueError
  end.

(** The first part of [read_packet_csv]: the network type named by the
    first line and the network object built for it. *)
Definition read_network (header : list string) : Result (string * Network) :=
  network_type ← getitem header 0;
  if bool_decide (network_type ∉ star_types) then
    field ← getitem header 1;
    network_arg ← int field;
    network_type_object ←
      (if decide (network_type = "AlwaysRightRing"%string)
       then new "AlwaysRightRing" [network_arg]
       else if decide (network_type = "ShortestPathRing"%string)
       then new "ShortestPathRing" [network_arg]
       else if decide (network_type = "ShortestPathTorus"%string)
       then new "ShortestPathTorus" [network_arg]
       else if decide (network_type = "GreedyChannelRing"%string)
       then new "GreedyChannelRing" [network_arg]
       else if decide (network_type = "GreedyChannelTorus"%string)
       then new "GreedyChannelTorus" [network_arg]
       else if decide (network_type = "GreedyPathRing"%string)
       then new "GreedyPathRing" [network_arg]
       else new "GreedyPathTorus" [network_arg]);
    Return (network_type, network_type_object)
  else
    field_1 ← getitem header 1;
    network_arg_1 ← int field_1;
    field_2 ← getitem header 2;
    network_arg_2 ← int field_2;
    network_type_object ←
      (if decide (network_type = "GreedyChannelStar"%string)
       then new "GreedyChannelStar" [network_arg_1; network_arg_2]
       else if decide (network_type = "GreedyPathStar"%string)
       then new "GreedyPathStar" [network_arg_1; network_arg_2]
       else new "ShortestPathStar" [network_arg_1; network_arg_2]);
    Return (network_type, network_type_object).

(** One turn of the loop [for network in reader], on the list built so far
    and the counter. *)
Definition read_row (network_type : string)
    (acc : list (Z * Packet NodeAddress) * Z) (network : list string)
  : Result (list (Z * Packet NodeAddress) * Z) :=
  let '(lst, counter) := acc in
  field ← getitem network 0;
  timestamp ← int field;
  '(source, destination) ←
    (if bool_decide (network_type ∈ torus_types) then
       field_1 ← getitem network 1;
       x_s ← int field_1;
       field_2 ← getitem network 2;
       y_s ← int field_2;
       field_3 ← getitem network 3;
       x_d ← int field_3;
       field_4 ← getitem network 4;
       y_d ← int field_4;
       Return (torus_address x_s y_s, torus_address x_d y_d)
     else
       field_1 ← getitem network 1;
       source ← int field_1;
       field_2 ← getitem network 2;
       destination ← int field_2;
       Return (ring_address source, ring_address destination));
  Return (lst ++ [(timestamp, mkPacket counter source destination)], counter + 1).

Definition read_packet_csv (header : list string) (reader : list (list string))
  : Result (Network * list (Z * Packet NodeAddress)) :=
  '(network_type, network_type_object) ← read_network header;
  '(lst, _) ← for_in reader (read_row network_type) ([], 0);
  Return (network_type_object, lst).
End ReadPacketCsv.

(** ** The distance formulas in the spec's words *)

(** Ring of size [k]: [min(|b - a|, k - |b - a|)]. *)
Definition ring_distance_spec (k a b : Z) : Z :=
  Z.min (Z.abs (b - a)) (k - Z.abs (b - a)).

(** Torus of dimensions [k1 x k2]: one ring distance per axis, each with
    that axis's modulus, summed. *)
Definition torus_distance_spec (k1 k2 : Z) (a b : Z * Z) : Z :=
  ring_distance_spec k1 a.1 b.1 + ring_distance_spec k2 a.2 b.2.

(** ** Concrete networks *)

(** Modelled from the spec: [AbstractRing], [AbstractTorus] and
    [AbstractStar] (module [a3_part1]) are not among the sources.  A ring of
    size [k] has the addresses [0 .. k-1] on a cycle, each node linked to
    its two neighbours; a [k x k] torus has the coordinate pairs as
    addresses and one ring per row and per column; a star has hub nodes
    linked to every other node and spoke nodes linked to the hubs only.  A
    channel is named by its two endpoints, smaller first. *)
Definition link (a b : Z) : Z * Z := (Z.min a b, Z.max a b).

Definition link2 (a b : Z * Z) : (Z * Z) * (Z * Z) :=
  if bool_decide (a.1 < b.1 \/ (a.1 = b.1 /\ a.2 <= b.2)) then (a, b) else (b, a).

Definition ring_node (k i : Z) : Node Z (Z * Z) :=
  mkNode i [((i - 1) `mod` k, link i ((i - 1) `mod` k));
            ((i + 1) `mod` k, link i ((i + 1) `mod` k))].

Definition ring (k : Z) : gmap Z (Node Z (Z * Z)) :=
  list_to_map ((fun i => (i, ring_node k i)) <$> seqZ 0 k).

Definition torus_node (k : Z) (a : Z * Z) : Node (Z * Z) ((Z * Z) * (Z * Z)) :=
  let '(x, y) := a in
  mkNode a ((fun b => (b, link2 a b)) <$>
            [((x - 1) `mod` k, y); ((x + 1) `mod` k, y);
             (x, (y - 1) `mod` k); (x, (y + 1) `mod` k)]).

Definition torus (k : Z) : gmap (Z * Z) (Node (Z * Z) ((Z * Z) * (Z * Z))) :=
  list_to_map ((fun a => (a, torus_node k a)) <$>
               (x ← seqZ 0 k; y ← seqZ 0 k; [(x, y)])).

Definition star_node (hubs spokes : list Z) (is_central : bool) (i : Z)
  : Node Z (Z * Z) :=
  mkNode i ((fun b => (b, link i b)) <$>
            filter (fun b => b ≠ i) (if is_central then hubs ++ spokes else hubs)).

Definition star (hubs spokes : list Z) : gmap Z (Node Z (Z * Z)) :=
  list_to_map (((fun i => (i, star_node hubs spokes true i)) <$> hubs) ++
               ((fun i => (i, star_node hubs spokes false i)) <$> spokes)).

(** The network that [GreedyChannelStar(k1, k2)] holds.  The constructor is
    part of [a3_part1]; the network is taken as the star of the spec with
    [k1] hubs and [k2] spokes on the addresses [0 .. k1 + k2 - 1], the hubs
    first, which is where [central_nodes = range(k1)] in [get_distance]
    looks for them. *)
Definition star_network (k1 k2 : Z) : gmap Z (Node Z (Z * Z)) :=
  star (seqZ 0 k1) (seqZ k1 k2).

Example ring5_size : size (ring 5) = 5%nat.
Proof. vm_compute. reflexivity. Qed.

Example ring5_get_distance_1_4 : GreedyChannelRing.get_distance (ring 5) 1 4 = Return 2.
Proof. vm_compute. reflexivity. Qed.

Example torus3_size : size (torus 3) = 9%nat.
Proof. vm_compute. reflexivity. Qed.

Example torus3_get_distance : GreedyChannelTorus.get_distance (torus 3) (0, 0) (1, 2) = Return 3.
Proof. vm_compute. reflexivity. Qed.

(** The spec's star scenario, one hub and three spokes. *)
Example star_1_3_count : GreedyChannelStar.count_central (star [0] [1; 2; 3]) = 1.
Proof. vm_compute. reflexivity. Qed.

Example star_1_3_spokes : GreedyChannelStar.get_distance (star [0] [1; 2; 3]) 1 3 = Return 2.
Proof. vm_compute. reflexivity. Qed.

Example star_1_3_hub : GreedyChannelStar.get_distance (star [0] [1; 2; 3]) 0 2 = Return 1.
Proof. vm_compute. reflexivity. Qed.


(** ** The selection policy in the spec's words *)

Section SelectionSpec.
Context {Channel : Type}.
Variable total_occupancy : Channel -> Z.

(** [score = n + sum_i max(occupancy(c_i) - i, 0)], [i] counted from
    [i0] at the head of the path. *)
Fixpoint penalty_sum (i0 : Z) (path : list Channel) : Z :=
  match path with
  | [] => 0
  | c :: path' => Z.max (total_occupancy c - i0) 0 + penalty_sum (i0 + 1) path'
  end.

Definition path_score_spec (path : list Channel) : Z :=
  Z.of_nat (length path) + penalty_sum 0 path.

(** A channel candidate's combined score. *)
Definition channel_score (t : Z * Channel) : Z := t.1 + total_occupancy t.2.

(** A candidate that survives both filtering stages of the policy: its
    primary key is minimal, and its secondary key is minimal among the
    candidates with that primary key. *)
Definition survives {T} (primary secondary : T -> Z) (l : list T) (t : T) : bool :=
  forallb (fun u => bool_decide (primary t <= primary u)) l &&
  forallb (fun u => bool_decide (primary u = primary t -> secondary t <= secondary u)) l.

Definition channel_survives (l : list (Z * Channel)) (t : Z * Channel) : bool :=
  survives channel_score fst l t.

Definition path_survives (l : list (list Channel)) (p : list Channel) : bool :=
  survives path_score_spec (fun p => Z.of_nat (length p)) l p.
End SelectionSpec.

(** * Properties *)

(** ** The path score *)

Section PathScore.
Context {Channel : Type}.
Variable total_occupancy : Channel -> Z.

Lemma score_loop (path : list Channel) (k : nat) (score : Z) :
  foldl (fun score '(i, c) => score + Z.max (total_occupancy c - Z.of_nat i) 0)
        score (imap (fun i c => (k + i, c)%nat) path)
  = score + penalty_sum total_occupancy (Z.of_nat k) path.
Proof.
  revert k score. induction path as [|c path IH]; intros k score; simpl.
  - lia.
  - rewrite (imap_ext _ (fun i c => (S k + i, c)%nat)) by (intros; simpl; f_equal; lia).
    rewrite IH. rewrite Nat.add_0_r.
    replace (Z.of_nat (S k)) with (Z.of_nat k + 1) by lia. lia.
Qed.

Lemma compute_path_score_spec (path : list Channel) :
  path ≠ [] ->
  compute_path_score total_occupancy path
  = Return (path_score_spec total_occupancy path).
Proof.
  intros Hne. unfold compute_path_score, path_score_spec.
  rewrite bool_decide_eq_true_2 by done. simpl.
  rewrite (imap_ext _ (fun i c => (0 + i, c)%nat)) by reflexivity.
  rewrite score_loop. simpl. reflexivity.
Qed.

Lemma penalty_sum_nonneg (i0 : Z) (path : list Channel) :
  0 <= penalty_sum total_occupancy i0 path.
Proof. revert i0. induction path as [|c path IH]; intros i0; simpl; [lia|]. specialize (IH (i0 + 1)). lia. Qed.

Lemma penalty_sum_absorbed (k : nat) (path : list Channel) :
  (forall i c, path !! i = Some c -> total_occupancy c <= Z.of_nat (k + i)) ->
  penalty_sum total_occupancy (Z.of_nat k) path = 0.
Proof.
  revert k. induction path as [|c path IH]; intros k Hocc; simpl; [reflexivity|].
  pose proof (Hocc 0%nat c eq_refl) as H0. rewrite Nat.add_0_r in H0.
  replace (Z.of_nat k + 1) with (Z.of_nat (S k)) by lia.
  rewrite IH.
  - lia.
  - intros i c' Hi. specialize (Hocc (S i) c' Hi).
    replace (S k + i)%nat with (k + S i)%nat by lia. exact Hocc.
Qed.

(** C7: on a non-empty path [c_0 .. c_(n-1)], [compute_path_score] returns
    [n + sum_i max(occupancy(c_i) - i, 0)]; a single hop with occupancy 0
    scores 1, and a path on which every channel's occupancy is at most its
    hop index scores its own length. *)
Theorem compute_path_score_formula (path : list Channel) :
  path ≠ [] ->
  compute_path_score total_occupancy path
    = Return (path_score_spec total_occupancy path)
  /\ (forall c, path = [c] -> total_occupancy c = 0 ->
        compute_path_score total_occupancy path = Return 1)
  /\ ((forall i c, path !! i = Some c -> total_occupancy c <= Z.of_nat i) ->
        compute_path_score total_occupancy path = Return (Z.of_nat (length path))).
Proof.
  intros Hne. rewrite compute_path_score_spec by done.
  split; [reflexivity|]. split.
  - intros c -> Hocc. unfold path_score_spec. simpl. rewrite Hocc. reflexivity.
  - intros Hocc. unfold path_score_spec.
    pose proof (penalty_sum_absorbed 0 path Hocc) as Habs.
    change (Z.of_nat 0) with 0 in Habs.
    rewrite Habs. f_equal. lia.
Qed.

(** C10: on a non-empty path [compute_path_score] returns a value that is
    at least the path's length, hence at least 1. *)
Theorem compute_path_score_lower_bound (path : list Channel) :
  path ≠ [] ->
  exists score, compute_path_score total_occupancy path = Return score
    /\ Z.of_nat (length path) <= score /\ 1 <= score.
Proof.
  intros Hne. exists (path_score_spec total_occupancy path).
  split; [by apply compute_path_score_spec|].
  unfold path_score_spec. pose proof (penalty_sum_nonneg 0 path).
  destruct path; [done|]. simpl length. lia.
Qed.
End PathScore.

(** Channels of the scenarios below are numbered; [occupancies t] reads the
    occupancy of channel [c] from position [c] of the table [t]. *)
Definition occupancies (t : list Z) : nat -> Z := fun c => default 0 (t !! c).

Lemma compute_path_score_formula_witness :
  let occ := occupancies [0; 1; 5] in
  let path := [0%nat; 1%nat] in
  compute_path_score occ path = Return (path_score_spec occ path)
  /\ (forall c, path = [c] -> occ c = 0 -> compute_path_score occ path = Return 1)
  /\ ((forall i c, path !! i = Some c -> occ c <= Z.of_nat i) ->
        compute_path_score occ path = Return (Z.of_nat (length path))).
Proof. intros occ path. apply (compute_path_score_formula occ path). discriminate. Defined.

Lemma compute_path_score_lower_bound_witness :
  exists score, compute_path_score (occupancies [0; 1; 5]) [2%nat; 0%nat] = Return score
    /\ Z.of_nat (length [2%nat; 0%nat]) <= score /\ 1 <= score.
Proof. apply (compute_path_score_lower_bound (occupancies [0; 1; 5]) [2%nat; 0%nat]). discriminate. Defined.

(** ** Distances *)

Section RingDistance.
Context {Channel : Type}.
Variable _nodes : gmap Z (Node Z Channel).

(** Going up the ring, [get_distance] is the spec's formula. *)
Lemma ring_get_distance_ascending (n1 n2 : Z) :
  contains _nodes n1 = true -> contains _nodes n2 = true -> n1 <= n2 ->
  GreedyChannelRing.get_distance _nodes n1 n2
  = Return (ring_distance_spec (Z.of_nat (size _nodes)) n1 n2).
Proof.
  intros H1 H2 Hle. unfold GreedyChannelRing.get_distance, ring_distance_spec.
  rewrite H1, H2. simpl.
  repeat case_decide; f_equal; lia.
Qed.

(** Going down the ring, the left arc is computed as [n2 - n1], which is
    negative and therefore always the one returned. *)
Lemma ring_get_distance_descending (n1 n2 : Z) :
  contains _nodes n1 = true -> contains _nodes n2 = true -> n2 < n1 ->
  GreedyChannelRing.get_distance _nodes n1 n2 = Return (n2 - n1).
Proof.
  intros H1 H2 Hlt. unfold GreedyChannelRing.get_distance.
  rewrite H1, H2. simpl.
  repeat case_decide; f_equal; lia.
Qed.
End RingDistance.

(** C1: on the ring of size 5, [get_distance(3, 1)] is [-2], where the
    formula [min(|b - a|, k - |b - a|)] gives 2 and [get_distance(1, 3)]
    gives 2: the value is negative and the metric is not symmetric. *)
Theorem ring_get_distance_negative :
  GreedyChannelRing.get_distance (ring 5) 3 1 = Return (-2)
  /\ ring_distance_spec 5 3 1 = 2
  /\ GreedyChannelRing.get_distance (ring 5) 1 3 = Return 2.
Proof. repeat split; vm_compute; reflexivity. Qed.

Section TorusDistance.
Context {Channel : Type}.
Variable _nodes : gmap (Z * Z) (Node (Z * Z) Channel).

(** Downwards the helper never wraps, whatever the number of nodes. *)
Lemma get_ring_distance_descending (n1 n2 : Z) :
  n2 < n1 ->
  GreedyChannelTorus.get_ring_distance _nodes n1 n2 = n1 - n2.
Proof.
  intros Hlt. unfold GreedyChannelTorus.get_ring_distance.
  repeat case_decide; lia.
Qed.

(** Upwards it wraps at the number of nodes of the whole torus. *)
Lemma get_ring_distance_ascending (n1 n2 : Z) :
  n1 <= n2 ->
  GreedyChannelTorus.get_ring_distance _nodes n1 n2
  = Z.min (n2 - n1) (Z.abs (Z.of_nat (size _nodes) - (n2 - n1))).
Proof.
  intros Hle. unfold GreedyChannelTorus.get_ring_distance.
  repeat case_decide; lia.
Qed.

Lemma torus_get_distance_sum (n1 n2 : Z * Z) :
  contains _nodes n1 = true -> contains _nodes n2 = true ->
  GreedyChannelTorus.get_distance _nodes n1 n2
  = Return (GreedyChannelTorus.get_ring_distance _nodes n1.1 n2.1
            + GreedyChannelTorus.get_ring_distance _nodes n1.2 n2.2).
Proof.
  intros H1 H2. unfold GreedyChannelTorus.get_distance.
  rewrite H1, H2. destruct n1, n2. reflexivity.
Qed.
End TorusDistance.

(** C4: on the 3 x 3 torus, [get_distance((2, 0), (0, 0))] is 2, where the
    sum of the per-axis ring distances with modulus 3 is 1: the helper takes
    the number of nodes of the torus, 9, as its modulus. *)
Theorem torus_get_distance_no_wrap :
  size (torus 3) = 9%nat
  /\ GreedyChannelTorus.get_distance (torus 3) (2, 0) (0, 0) = Return 2
  /\ torus_distance_spec 3 3 (2, 0) (0, 0) = 1.
Proof. repeat split; vm_compute; reflexivity. Qed.

Section StarDistance.
Context {Channel : Type}.
Variable _nodes : gmap Z (Node Z Channel).

Local Notation "'k1'" := (GreedyChannelStar.count_central _nodes).

(** The value [get_distance] returns between two addresses of the
    network. *)
Lemma star_get_distance_value (n1 n2 : Z) :
  contains _nodes n1 = true -> contains _nodes n2 = true ->
  GreedyChannelStar.get_distance _nodes n1 n2
  = Return (if decide (n1 = n2) then 0
            else if bool_decide (0 <= n2 < k1) || bool_decide (0 <= n1 < k1)
                 then 1 else 2).
Proof.
  intros H1 H2. unfold GreedyChannelStar.get_distance, GreedyChannelStar.in_range.
  rewrite H1, H2. simpl. repeat case_match; reflexivity.
Qed.

(** On a network whose hubs carry the addresses [0 .. k1 - 1], the test
    of the code is the hub test of the spec. *)
Lemma star_get_distance_hubs_first (n1 n2 : Z) :
  (forall a, contains _nodes a = true ->
             (GreedyChannelStar.is_hub _nodes a = true <-> 0 <= a < k1)) ->
  contains _nodes n1 = true -> contains _nodes n2 = true -> n1 ≠ n2 ->
  GreedyChannelStar.get_distance _nodes n1 n2
  = Return (if GreedyChannelStar.is_hub _nodes n1 || GreedyChannelStar.is_hub _nodes n2
            then 1 else 2).
Proof.
  intros Hlayout H1 H2 Hne. rewrite star_get_distance_value by done.
  rewrite decide_False by done. f_equal.
  pose proof (Hlayout n1 H1) as L1. pose proof (Hlayout n2 H2) as L2.
  destruct (bool_decide (0 <= n2 < k1)) eqn:E2;
    destruct (bool_decide (0 <= n1 < k1)) eqn:E1;
    try apply bool_decide_eq_true_1 in E1; try apply bool_decide_eq_false_1 in E1;
    try apply bool_decide_eq_true_1 in E2; try apply bool_decide_eq_false_1 in E2;
    destruct (GreedyChannelStar.is_hub _nodes n1), (GreedyChannelStar.is_hub _nodes n2);
    simpl; try reflexivity; exfalso; intuition congruence.
Qed.
End StarDistance.

(** *** The star built from its two counts *)





Section StarLayout.
Variables hubs spokes : list Z.
Hypothesis Hnodup : NoDup (hubs ++ spokes).









End StarLayout.






Example star_network_2_3_distances :
  GreedyChannelStar.get_distance (star_network 2 3) 0 1 = Return 1
  /\ GreedyChannelStar.get_distance (star_network 2 3) 1 4 = Return 1
  /\ GreedyChannelStar.get_distance (star_network 2 3) 2 4 = Return 2
  /\ GreedyChannelStar.get_distance (star_network 2 3) 3 3 = Return 0.
Proof. repeat split; vm_compute; reflexivity. Qed.

(** The layout matters.  On a network populated with its single hub at the
    highest address, which no constructor call of the source builds, the
    spokes 0 and 1 are at distance 1 although neither is a hub, and the hub
    3 is at distance 2 from the spoke 1. *)
Lemma star_get_distance_hub_last :
  let net := star [3] [0; 1; 2] in
  contains net 0 = true /\ contains net 1 = true /\ contains net 3 = true
  /\ GreedyChannelStar.is_hub net 0 = false
  /\ GreedyChannelStar.is_hub net 1 = false
  /\ GreedyChannelStar.is_hub net 3 = true
  /\ GreedyChannelStar.get_distance net 0 1 = Return 1
  /\ GreedyChannelStar.get_distance net 3 1 = Return 2.
Proof. repeat split; vm_compute; reflexivity. Qed.

(** ** The list handed to a selector *)

Section Shrinking.
Context {T : Type} `{EqDecision T}.

(** A step that, whatever it returns or raises, leaves in the list object
    a sub-list of what it found there. *)
Definition shrinks {A} (m : Py (list T) A) : Prop :=
  forall l, (m l).2 `sublist_of` l.

Lemma remove_first_sublist (x : T) (l l' : list T) :
  remove_first x l = Some l' -> l' `sublist_of` l.
Proof.
  revert l'. induction l as [|y l IH]; intros l' Hrem; simpl in Hrem; [done|].
  case_decide.
  - injection Hrem as <-. by apply sublist_cons.
  - destruct (remove_first x l) as [r|]; simpl in Hrem; [|done].
    injection Hrem as <-. apply sublist_skip. by apply IH.
Qed.

Lemma remove_first_elem (x : T) (l : list T) :
  x ∈ l -> exists l', remove_first x l = Some l' /\ S (length l') = length l.
Proof.
  induction l as [|y l IH]; intros Hin; [by apply not_elem_of_nil in Hin|].
  simpl. case_decide; [by eexists|].
  apply elem_of_cons in Hin as [->|Hin]; [done|].
  destruct (IH Hin) as (l' & -> & Hlen). eexists. split; [done|]. simpl. lia.
Qed.

Lemma shrinks_ret {A} (a : A) : shrinks (mret a).
Proof. intros l. reflexivity. Qed.

Lemma shrinks_lift {A} (r : Result A) : shrinks (lift r).
Proof. intros l. reflexivity. Qed.

Lemma shrinks_read {A} (f : list T -> Result A) : shrinks (fun l => (f l, l)).
Proof. intros l. reflexivity. Qed.

Lemma shrinks_remove (x : T) : shrinks (py_remove x).
Proof.
  intros l. unfold py_remove.
  destruct (remove_first x l) eqn:E; simpl; [|reflexivity].
  by eapply remove_first_sublist.
Qed.

Lemma shrinks_bind {A B} (m : Py (list T) A) (f : A -> Py (list T) B) :
  shrinks m -> (forall a, shrinks (f a)) -> shrinks (m ≫= f).
Proof.
  intros Hm Hf l. unfold mbind, Py_bind. specialize (Hm l).
  destruct (m l) as [[a|e] l']; simpl in *; [|done].
  etrans; [apply Hf|done].
Qed.

Lemma shrinks_for_each_from {Acc} (body : Acc -> T -> Py (list T) Acc) :
  (forall acc x, shrinks (body acc x)) ->
  forall fuel i acc, shrinks (for_each_from body fuel i acc).
Proof.
  intros Hbody fuel. induction fuel as [|fuel IH]; intros i acc l; simpl; [done|].
  destruct (l !! i) as [x|]; [|done].
  specialize (Hbody acc x l).
  destruct (body acc x l) as [[acc'|e] l']; simpl in *; [|done].
  etrans; [apply IH|done].
Qed.

Lemma shrinks_for_each {Acc} (body : Acc -> T -> Py (list T) Acc) (acc : Acc) :
  (forall acc x, shrinks (body acc x)) -> shrinks (for_each body acc).
Proof. intros Hbody l. by apply shrinks_for_each_from. Qed.

(** The loop has come to its end within the steps it is given: more
    steps change nothing. *)
Lemma for_each_from_fuel {Acc} (body : Acc -> T -> Py (list T) Acc) :
  (forall acc x, shrinks (body acc x)) ->
  forall (fuel fuel' i : nat) (acc : Acc) (l : list T),
    (length l <= i + fuel)%nat -> (fuel <= fuel')%nat ->
    for_each_from body fuel' i acc l = for_each_from body fuel i acc l.
Proof.
  intros Hbody fuel. induction fuel as [|fuel IH]; intros fuel' i acc l Hlen Hle.
  - assert (l !! i = None) as Hend by (apply lookup_ge_None; lia).
    destruct fuel'; simpl; [done|]. by rewrite Hend.
  - destruct fuel' as [|fuel']; [lia|]. simpl.
    destruct (l !! i) as [x|]; [|done].
    pose proof (sublist_length _ _ (Hbody acc x l)) as Hshort.
    destruct (body acc x l) as [[acc'|e] l']; simpl in *; [|done].
    apply IH; lia.
Qed.

Lemma for_each_total {Acc} (body : Acc -> T -> Py (list T) Acc) (acc : Acc)
    (l : list T) (extra : nat) :
  (forall acc x, shrinks (body acc x)) ->
  for_each_from body (length l + extra) 0 acc l = for_each body acc l.
Proof. intros Hbody. unfold for_each. apply for_each_from_fuel; [done|lia..]. Qed.
End Shrinking.

Ltac shrink_step :=
  first
    [ apply shrinks_ret
    | apply shrinks_lift
    | apply shrinks_remove
    | apply shrinks_read
    | apply shrinks_for_each; intros
    | apply shrinks_bind; [|intros]
    | case_decide
    | match goal with
      | |- context [match ?x with (_, _) => _ end] => is_var x; destruct x
      end ].

Section SelectorsFrame.
Context {Channel : Type} `{EqDecision Channel}.
Variable total_occupancy : Channel -> Z.
Variable randint : Z -> Z -> Z.

Lemma greedy_channel_select_shrinks :
  shrinks (greedy_channel_select total_occupancy randint).
Proof. unfold greedy_channel_select, py_len, py_getitem. repeat shrink_step. Qed.

Lemma greedy_path_select_shrinks :
  shrinks (greedy_path_select total_occupancy randint).
Proof. unfold greedy_path_select, py_len, py_getitem. repeat shrink_step. Qed.

(** C9, amended: the tie-break filtering works in place on the list the
    selector is passed (the path collection, in path mode), and what it
    leaves in that list is a sub-list of what it found there: elements are
    removed, none is added, altered or moved. *)
Theorem selectors_only_remove :
  (forall channels : list (Z * Channel),
     (greedy_channel_select total_occupancy randint channels).2
       `sublist_of` channels)
  /\ (forall paths : list (list Channel),
        (greedy_path_select total_occupancy randint paths).2
          `sublist_of` paths).
Proof.
  split; intros l; [apply greedy_channel_select_shrinks|apply greedy_path_select_shrinks].
Qed.
End SelectorsFrame.

(** ** What a selector can return *)

Section Outcome.
Context {T : Type} `{EqDecision T}.

(** Started on a sub-list of [l0], the step [m] leaves a sub-list of [l0]
    and, when it returns, returns a value that satisfies [Q]. *)
Definition yields {A} (l0 : list T) (m : Py (list T) A) (Q : A -> Prop) : Prop :=
  forall l, l `sublist_of` l0 ->
    (m l).2 `sublist_of` l0 /\ forall a, (m l).1 = Return a -> Q a.

Lemma yields_shrinks {A} (l0 : list T) (m : Py (list T) A) :
  shrinks m -> yields l0 m (fun _ => True).
Proof. intros Hm l Hl. split; [|done]. etrans; [apply Hm|done]. Qed.

Lemma yields_ret {A} (l0 : list T) (a : A) (Q : A -> Prop) :
  Q a -> yields l0 (mret a) Q.
Proof. intros Ha l Hl. split; [done|]. intros a' [= <-]. done. Qed.

Lemma yields_lift {A} (l0 : list T) (r : Result A) (Q : A -> Prop) :
  (forall a, r = Return a -> Q a) -> yields l0 (lift r) Q.
Proof. intros Hr l Hl. split; [done|]. intros a Ha. by apply Hr. Qed.

Lemma yields_bind {A B} (l0 : list T) (m : Py (list T) A) (f : A -> Py (list T) B)
    (Q : A -> Prop) (R : B -> Prop) :
  yields l0 m Q -> (forall a, Q a -> yields l0 (f a) R) -> yields l0 (m ≫= f) R.
Proof.
  intros Hm Hf l Hl. unfold mbind, Py_bind.
  destruct (Hm l Hl) as [Hsub Hret].
  destruct (m l) as [[a|e] l']; simpl in *; [|split; [done|discriminate]].
  by apply Hf; [apply Hret|].
Qed.

Lemma getitem_elem (l : list T) (i : Z) (x : T) :
  getitem l i = Return x -> x ∈ l.
Proof.
  unfold getitem. case_decide; [|discriminate].
  destruct (l !! _) eqn:E; [|discriminate].
  intros [= <-]. by eapply list_elem_of_lookup_2.
Qed.

Lemma yields_getitem (l0 : list T) (i : Z) :
  yields l0 (py_getitem i) (fun x => x ∈ l0).
Proof.
  intros l Hl. split; [done|]. simpl. intros x Hx.
  apply getitem_elem in Hx. by eapply sublist_submseteq, elem_of_submseteq in Hl.
Qed.
End Outcome.

Ltac yields_skip :=
  try match goal with
      | |- yields _ (match ?x with (_, _) => _ end) _ => is_var x; destruct x
      end;
  apply yields_bind with (Q := fun _ => True);
  [apply yields_shrinks; unfold py_len, py_getitem; repeat shrink_step | intros ? _].

Section SelectorsOutcome.
Context {Channel : Type} `{EqDecision Channel}.
Variable total_occupancy : Channel -> Z.
Variable randint : Z -> Z -> Z.

(** A channel that [greedy_channel_select] returns is the channel of one of
    the candidates it was passed. *)
Lemma greedy_channel_select_returns_candidate (channels : list (Z * Channel))
    (c : Channel) :
  (greedy_channel_select total_occupancy randint channels).1 = Return c ->
  exists d, (d, c) ∈ channels.
Proof.
  assert (yields channels (greedy_channel_select total_occupancy randint)
            (fun c => exists d, (d, c) ∈ channels)) as Hy.
  { unfold greedy_channel_select. do 9 yields_skip.
    case_decide.
    all: apply yields_bind with (Q := fun t => t ∈ channels);
      [apply yields_getitem|intros [d c'] Hin; apply yields_ret; by exists d]. }
  intros Hret. by apply (Hy channels).
Qed.

(** A channel that [greedy_path_select] returns is the first channel of one
    of the paths it was passed. *)
Lemma greedy_path_select_returns_head (paths : list (list Channel))
    (c : Channel) :
  (greedy_path_select total_occupancy randint paths).1 = Return c ->
  exists p, p ∈ paths /\ head p = Some c.
Proof.
  assert (yields paths (greedy_path_select total_occupancy randint)
            (fun c => exists p, p ∈ paths /\ head p = Some c)) as Hy.
  { unfold greedy_path_select. do 9 yields_skip.
    case_decide.
    all: apply yields_bind with (Q := fun p => p ∈ paths);
      [apply yields_getitem|intros p Hin; apply yields_lift; intros c' Hc'].
    all: exists p; split; [done|].
    all: unfold getitem in Hc'; simpl in Hc'; case_decide; [|discriminate].
    all: destruct p; simpl in *; [discriminate|]; by injection Hc' as <-. }
  intros Hret. by apply (Hy paths).
Qed.
End SelectorsOutcome.

(** ** When a selector returns *)

Lemma run_bind {S A B} (m : Py S A) (f : A -> Py S B) (s s' : S) (a : A) :
  m s = (Return a, s') -> (m ≫= f) s = f a s'.
Proof. intros Hm. unfold mbind, Py_bind. by rewrite Hm. Qed.

Lemma getitem_in_range {A} (l : list A) (i : Z) :
  0 <= i < Z.of_nat (length l) -> exists x, getitem l i = Return x /\ x ∈ l.
Proof.
  intros Hi. unfold getitem. cbv zeta.
  destruct (decide (i < 0)); [lia|]. destruct (decide (0 <= i < _)); [|lia].
  destruct (lookup_lt_is_Some_2 l (Z.to_nat i)) as [x Hx]; [lia|].
  rewrite Hx. exists x. split; [done|]. by eapply list_elem_of_lookup_2.
Qed.

Section Loops.
Context {T : Type} `{EqDecision T}.

Lemma remove_first_other (x y : T) (l l' : list T) :
  remove_first x l = Some l' -> y ∈ l -> y ≠ x -> y ∈ l'.
Proof.
  revert l'. induction l as [|z l IH]; intros l' Hrem Hin Hne; simpl in Hrem; [done|].
  case_decide as Hxz.
  - injection Hrem as <-. apply elem_of_cons in Hin as [->|Hin]; [by subst|done].
  - destruct (remove_first x l) as [r|]; simpl in Hrem; [|done].
    injection Hrem as <-. apply elem_of_cons in Hin as [->|Hin].
    + apply list_elem_of_here.
    + apply list_elem_of_further. by apply IH.
Qed.

(** A loop whose body, on an element of the list, returns, keeps the
    invariant [I] and removes at most one element, returns and keeps [I];
    and it cannot empty a list: every removal moves the index on. *)
Lemma for_each_from_invariant {Acc} (body : Acc -> T -> Py (list T) Acc)
    (I : Acc -> list T -> Prop) :
  (forall acc x l, I acc l -> x ∈ l ->
     exists acc' l', body acc x l = (Return acc', l') /\ I acc' l'
       /\ (length l <= S (length l'))%nat) ->
  forall (fuel i : nat) (acc : Acc) (l : list T),
    I acc l ->
    exists acc' l', for_each_from body fuel i acc l = (Return acc', l')
      /\ I acc' l'
      /\ ((1 <= i \/ 2 <= length l)%nat -> (1 <= length l)%nat ->
          (1 <= length l')%nat).
Proof.
  intros Hbody fuel. induction fuel as [|fuel IH]; intros i acc l HI; simpl.
  { by exists acc, l. }
  destruct (l !! i) as [x|] eqn:Hx; [|by exists acc, l].
  pose proof (lookup_lt_Some _ _ _ Hx) as Hlt.
  destruct (Hbody acc x l HI) as (acc1 & l1 & -> & HI1 & Hlen);
    [by eapply list_elem_of_lookup_2|].
  destruct (IH (S i) acc1 l1 HI1) as (acc' & l' & -> & HI' & Hcount).
  exists acc', l'. split; [done|]. split; [done|].
  intros Hi Hl. apply Hcount; lia.
Qed.

Lemma for_each_invariant {Acc} (body : Acc -> T -> Py (list T) Acc)
    (I : Acc -> list T -> Prop) (acc : Acc) (l : list T) :
  (forall acc x l, I acc l -> x ∈ l ->
     exists acc' l', body acc x l = (Return acc', l') /\ I acc' l'
       /\ (length l <= S (length l'))%nat) ->
  I acc l ->
  exists acc' l', for_each body acc l = (Return acc', l')
    /\ I acc' l' /\ ((2 <= length l)%nat -> (1 <= length l')%nat).
Proof.
  intros Hbody HI. unfold for_each.
  destruct (for_each_from_invariant body I Hbody (length l) 0 acc l HI)
    as (acc' & l' & Hrun & HI' & Hcount).
  exists acc', l'. split; [done|]. split; [done|]. intros Hl. apply Hcount; lia.
Qed.

(** [l.remove(x)] on an element [x] of [l]. *)
Lemma py_remove_elem (x : T) (l : list T) :
  x ∈ l ->
  exists l', py_remove x l = (Return tt, l')
    /\ S (length l') = length l /\ forall y, y ∈ l -> y ≠ x -> y ∈ l'.
Proof.
  intros Hin. unfold py_remove.
  destruct (remove_first_elem x l Hin) as (l' & Hrem & Hlen). rewrite Hrem.
  exists l'. split; [done|]. split; [done|]. intros y Hy Hne.
  by eapply remove_first_other.
Qed.
End Loops.

Section SelectorsReturn.
Context {Channel : Type} `{EqDecision Channel}.
Variable total_occupancy : Channel -> Z.
Variable randint : Z -> Z -> Z.

(** On a non-empty list of candidates at non-negative distances
    [greedy_channel_select] returns a channel, provided the draw of
    [random.randint(0, n)] is not [n] itself. *)
Lemma greedy_channel_select_returns (channels : list (Z * Channel)) :
  channels ≠ [] ->
  (forall t, t ∈ channels -> 0 <= t.1) ->
  (forall n, 1 < n -> 0 <= randint 0 n < n) ->
  exists c, (greedy_channel_select total_occupancy randint channels).1 = Return c.
Proof.
  intros Hne Hpos Hdraw. unfold greedy_channel_select.
  erewrite run_bind by reflexivity.
  rewrite bool_decide_eq_true_2 by done.
  erewrite run_bind by reflexivity.
  replace (forallb _ channels) with true; cycle 1.
  { symmetry. apply forallb_forall. intros t Ht.
    apply bool_decide_eq_true_2, Z.le_ge, Hpos, list_elem_of_In, Ht. }
  erewrite run_bind by reflexivity.
  destruct channels as [|t0 rest] eqn:Hch; [done|]. rewrite <- Hch in *.
  assert (t0 ∈ channels) as Ht0 by (rewrite Hch; apply list_elem_of_here).
  erewrite (run_bind (py_getitem 0)); cycle 1.
  { unfold py_getitem. rewrite Hch. reflexivity. }
  (* the scan for the minimum *)
  destruct (for_each_invariant
    (fun '(min_score, min_dist) '(d, channel) =>
       let channel_occupancy := total_occupancy channel in
       let score := d + channel_occupancy in
       if decide (score < min_score) then
         if decide (d < min_dist) then mret (score, d) else mret (score, min_dist)
       else mret (min_score, min_dist))
    (fun acc l => l = channels /\
       exists t, t ∈ channels /\ channel_score total_occupancy t = acc.1)
    (t0.1 + total_occupancy t0.2, t0.1) channels)
    as ([min_score min_dist] & l1 & Hrun1 & [-> (tm & Htm & Hscore)] & _).
  { intros [ms md] [d c] l [-> (t & Ht & Hs)] Hx. simpl in *.
    repeat case_decide.
    all: eexists _, _; split; [reflexivity|]; split; [|lia].
    all: split; [done|]; simpl.
    1-2: by exists (d, c). by exists t. }
  { split; [done|]. by exists t0. }
  erewrite run_bind by exact Hrun1. simpl in Hscore.
  (* the first filter *)
  destruct (for_each_invariant
    (fun (_ : ()) '(d, c) =>
       let score := d + total_occupancy c in
       if decide (score ≠ min_score) then py_remove (d, c) else mret tt)
    (fun _ l => exists t, t ∈ l /\ channel_score total_occupancy t = min_score)
    tt channels)
    as ([] & l2 & Hrun2 & (t2 & Ht2 & _) & _).
  { intros [] [d c] l (t & Ht & Hs) Hx. simpl. case_decide as Hd.
    - destruct (py_remove_elem (d, c) l Hx) as (l' & -> & Hlen & Hkeep).
      eexists _, _. split; [reflexivity|]. split; [|lia].
      exists t. split; [|done]. apply Hkeep; [done|].
      intros ->. by apply Hd.
    - eexists _, _. split; [reflexivity|]. split; [|lia]. by exists t. }
  { by exists tm. }
  erewrite run_bind by exact Hrun2.
  erewrite run_bind by reflexivity.
  (* the second filter *)
  assert (exists l3, ((if decide (Z.of_nat (length l2) > 1) then
             for_each (fun (_ : ()) '(d, c) =>
                         if decide (d ≠ min_dist) then py_remove (d, c) else mret tt) tt
           else mret tt) : Py _ _) l2 = (Return tt, l3) /\ (1 <= length l3)%nat)
    as (l3 & Hrun3 & Hlen3).
  { case_decide as Hn.
    - destruct (for_each_invariant
        (fun (_ : ()) '(d, c) =>
           if decide (d ≠ min_dist) then py_remove (d, c) else mret tt)
        (fun _ _ => True) tt l2)
        as ([] & l3 & Hrun3 & _ & Hcount); [|done|].
      { intros [] [d c] l _ Hx. case_decide.
        - destruct (py_remove_elem (d, c) l Hx) as (l' & -> & Hlen & _).
          eexists _, _. split; [reflexivity|]. split; [done|lia].
        - eexists _, _. split; [reflexivity|]. split; [done|lia]. }
      exists l3. split; [done|]. apply Hcount. lia.
    - exists l2. split; [done|].
      apply list_elem_of_lookup_1 in Ht2 as [i Hi].
      apply lookup_lt_Some in Hi. lia. }
  erewrite run_bind by exact Hrun3.
  erewrite run_bind by reflexivity.
  (* the choice *)
  destruct (decide (Z.of_nat (length l3) > 1)) as [Hn|Hn].
  - destruct (getitem_in_range l3 (randint 0 (Z.of_nat (length l3))))
      as (t & Hget & _); [apply Hdraw; lia|].
    erewrite (run_bind (py_getitem _)); cycle 1.
    { unfold py_getitem. rewrite Hget. reflexivity. }
    by eexists.
  - destruct (getitem_in_range l3 0) as (t & Hget & _); [lia|].
    erewrite (run_bind (py_getitem _)); cycle 1.
    { unfold py_getitem. rewrite Hget. reflexivity. }
    by eexists.
Qed.

(** On a non-empty list of non-empty paths [greedy_path_select] returns a
    channel, under the same proviso on the draw. *)
Lemma greedy_path_select_returns (paths : list (list Channel)) :
  paths ≠ [] ->
  (forall p, p ∈ paths -> p ≠ []) ->
  (forall n, 1 < n -> 0 <= randint 0 n < n) ->
  exists c, (greedy_path_select total_occupancy randint paths).1 = Return c.
Proof.
  intros Hne Hpaths Hdraw. unfold greedy_path_select.
  erewrite run_bind by reflexivity.
  rewrite bool_decide_eq_true_2 by done.
  erewrite run_bind by reflexivity.
  destruct paths as [|p0 rest] eqn:Hps; [done|]. rewrite <- Hps in *.
  assert (p0 ∈ paths) as Hp0 by (rewrite Hps; apply list_elem_of_here).
  erewrite (run_bind (py_getitem 0)); cycle 1.
  { unfold py_getitem. rewrite Hps. reflexivity. }
  rewrite (compute_path_score_spec total_occupancy p0) by auto.
  erewrite run_bind by reflexivity.
  (* the scan for the minimum *)
  destruct (for_each_invariant
    (fun '(min_score, min_len) p =>
       score ← lift (compute_path_score total_occupancy p);
       let length_ := Z.of_nat (length p) in
       if decide (score < min_score) then
         if decide (length_ < min_len) then mret (score, length_)
         else mret (score, min_len)
       else mret (min_score, min_len))
    (fun acc l => l = paths /\
       exists t, t ∈ paths /\ path_score_spec total_occupancy t = acc.1)
    (path_score_spec total_occupancy p0, Z.of_nat (length p0)) paths)
    as ([min_score min_len] & l1 & Hrun1 & [-> (tm & Htm & Hscore)] & _).
  { intros [ms ml] p l [-> (t & Ht & Hs)] Hx. simpl in *.
    rewrite (compute_path_score_spec total_occupancy p) by auto.
    erewrite run_bind by reflexivity.
    repeat case_decide.
    all: eexists _, _; split; [reflexivity|]; split; [|lia].
    all: split; [done|]; simpl.
    1-2: by exists p. by exists t. }
  { split; [done|]. by exists p0. }
  erewrite run_bind by exact Hrun1. simpl in Hscore.
  (* the first filter *)
  destruct (for_each_invariant
    (fun (_ : ()) p =>
       score ← lift (compute_path_score total_occupancy p);
       if decide (score ≠ min_score) then py_remove p else mret tt)
    (fun _ l => (forall p, p ∈ l -> p ≠ []) /\
       exists t, t ∈ l /\ path_score_spec total_occupancy t = min_score)
    tt paths)
    as ([] & l2 & Hrun2 & (Hpaths2 & t2 & Ht2 & _) & _).
  { intros [] p l (Hl & t & Ht & Hs) Hx.
    rewrite (compute_path_score_spec total_occupancy p) by auto.
    erewrite run_bind by reflexivity. case_decide as Hd.
    - pose proof (shrinks_remove p l) as Hsub.
      destruct (py_remove_elem p l Hx) as (l' & Hrem & Hlen & Hkeep).
      rewrite Hrem in Hsub |- *. simpl in Hsub.
      eexists _, _. split; [reflexivity|]. split; [|lia]. split.
      + intros q Hq. apply Hl. by eapply sublist_submseteq, elem_of_submseteq in Hsub.
      + exists t. split; [|done]. apply Hkeep; [done|]. intros ->. by apply Hd.
    - eexists _, _. split; [reflexivity|]. split; [|lia]. split; [done|]. by exists t. }
  { split; [done|]. by exists tm. }
  erewrite run_bind by exact Hrun2.
  erewrite run_bind by reflexivity.
  (* the second filter *)
  assert (exists l3, ((if decide (Z.of_nat (length l2) > 1) then
             for_each (fun (_ : ()) p =>
                         if decide (Z.of_nat (length p) ≠ min_len) then py_remove p
                         else mret tt) tt
           else mret tt) : Py _ _) l2 = (Return tt, l3)
           /\ (1 <= length l3)%nat /\ forall p, p ∈ l3 -> p ≠ [])
    as (l3 & Hrun3 & Hlen3 & Hpaths3).
  { destruct (decide (Z.of_nat (length l2) > 1)) as [Hn|Hn].
    - destruct (for_each_invariant
        (fun (_ : ()) p =>
           if decide (Z.of_nat (length p) ≠ min_len) then py_remove p else mret tt)
        (fun _ l => forall p, p ∈ l -> p ≠ []) tt l2)
        as ([] & l3 & Hrun3 & Hpaths3 & Hcount); [|done|].
      { intros [] p l Hl Hx. case_decide.
        - pose proof (shrinks_remove p l) as Hsub.
          destruct (py_remove_elem p l Hx) as (l' & Hrem & Hlen & _).
          rewrite Hrem in Hsub |- *. simpl in Hsub.
          eexists _, _. split; [reflexivity|]. split; [|lia].
          intros q Hq. apply Hl. by eapply sublist_submseteq, elem_of_submseteq in Hsub.
        - eexists _, _. split; [reflexivity|]. split; [done|lia]. }
      exists l3. split; [done|]. split; [apply Hcount; lia|done].
    - exists l2. split; [done|]. split; [|done].
      apply list_elem_of_lookup_1 in Ht2 as [i Hi].
      apply lookup_lt_Some in Hi. lia. }
  erewrite run_bind by exact Hrun3.
  erewrite run_bind by reflexivity.
  (* the choice *)
  assert (forall p, p ∈ l3 -> exists c, getitem p 0 = Return c) as Hhead.
  { intros p Hp. destruct (getitem_in_range p 0) as (c & Hc & _); [|by exists c].
    specialize (Hpaths3 p Hp). destruct p; [done|]. simpl length. lia. }
  destruct (decide (Z.of_nat (length l3) > 1)) as [Hn|Hn].
  - destruct (getitem_in_range l3 (randint 0 (Z.of_nat (length l3))))
      as (p & Hget & Hp); [apply Hdraw; lia|].
    erewrite (run_bind (py_getitem _)); cycle 1.
    { unfold py_getitem. rewrite Hget. reflexivity. }
    destruct (Hhead p Hp) as (c & Hc). exists c. unfold lift. by rewrite Hc.
  - destruct (getitem_in_range l3 0) as (p & Hget & Hp); [lia|].
    erewrite (run_bind (py_getitem _)); cycle 1.
    { unfold py_getitem. rewrite Hget. reflexivity. }
    destruct (Hhead p Hp) as (c & Hc). exists c. unfold lift. by rewrite Hc.
Qed.
End SelectorsReturn.

(** ** Selection on concrete candidate lists *)

(** C2: of the two candidates [(3, c0)] and [(1, c1)], with occupancies 0
    and 2, both have the minimal score 3 and [c1] has the smaller distance,
    yet [greedy_channel_select] returns [c0], whatever the random source;
    likewise [greedy_path_select] returns the head of the three-hop path
    when a one-hop path has the same score. *)
Theorem greedy_select_keeps_larger_secondary (randint : Z -> Z -> Z) :
  let occ := occupancies [0; 2] in
  let channels := [(3, 0%nat); (1, 1%nat)] in
  let occ' := occupancies [0; 0; 0; 2] in
  let paths := [[0%nat; 1%nat; 2%nat]; [3%nat]] in
  (greedy_channel_select occ randint channels).1 = Return 0%nat
  /\ channel_survives occ channels (3, 0%nat) = false
  /\ channel_survives occ channels (1, 1%nat) = true
  /\ (greedy_path_select occ' randint paths).1 = Return 0%nat
  /\ path_survives occ' paths [0%nat; 1%nat; 2%nat] = false
  /\ path_survives occ' paths [3%nat] = true.
Proof. repeat split; vm_compute; reflexivity. Qed.

(** C3: two candidates tied after both stages, and the draw of
    [random.randint(0, 2)] is 2: both selectors raise [IndexError]. *)
Theorem greedy_select_tie_raises :
  let occ := occupancies [] in
  let draw_top := fun _ b : Z => b in
  0 <= draw_top 0 2 <= 2
  /\ (greedy_channel_select occ draw_top [(1, 0%nat); (1, 1%nat)]).1
     = Raise IndexError
  /\ (greedy_path_select occ draw_top [[0%nat]; [1%nat]]).1
     = Raise IndexError.
Proof. repeat split; vm_compute; try reflexivity; discriminate. Qed.

(** C8: of five idle candidates at distances 5, 6, 7, 8 and 0 only the last
    survives both stages, yet the selector is left with two candidates and
    returns the channel at distance 8, the one at distance 0, or raises,
    according to the draw. *)
Theorem greedy_channel_select_depends_on_draw :
  let occ := occupancies [] in
  let channels := [(5, 0%nat); (6, 1%nat); (7, 2%nat); (8, 3%nat); (0, 4%nat)] in
  filter (fun t => channel_survives occ channels t = true) channels = [(0, 4%nat)]
  /\ (greedy_channel_select occ (fun _ _ => 0) channels).1 = Return 3%nat
  /\ (greedy_channel_select occ (fun _ _ => 1) channels).1 = Return 4%nat
  /\ (greedy_channel_select occ (fun _ _ => 2) channels).1 = Raise IndexError.
Proof. repeat split; vm_compute; reflexivity. Qed.

(** The list a selector was passed is shorter after the call. *)
Lemma selectors_mutate_argument :
  let occ := occupancies [] in
  let draw := fun _ b : Z => b in
  let channels := [(1, 0%nat); (5, 1%nat)] in
  let paths := [[0%nat]; [1%nat; 2%nat]] in
  (greedy_channel_select occ draw channels).2 = [(1, 0%nat)]
  /\ (greedy_channel_select occ draw channels).2 ≠ channels
  /\ (greedy_path_select occ draw paths).2 = [[0%nat]]
  /\ (greedy_path_select occ draw paths).2 ≠ paths.
Proof. repeat split; vm_compute; try reflexivity; discriminate. Qed.

(** ** Routing *)

Section Routing.
Context {Address : Type} `{Countable Address}.
Context {Channel : Type} `{EqDecision Channel}.
Variable total_occupancy : Channel -> Z.
Variable randint : Z -> Z -> Z.
Variable _nodes : gmap Address (Node Address Channel).

(** At the destination every strategy answers [None]. *)
Lemma route_packet_arrived get_distance find_paths (packet : Packet Address) :
  contains _nodes (source packet) = true ->
  contains _nodes (destination packet) = true ->
  greedy_channel_route_packet total_occupancy randint _nodes get_distance
    (destination packet) packet = Return None
  /\ greedy_path_route_packet total_occupancy randint _nodes find_paths
       (destination packet) packet = Return None.
Proof.
  intros Hs Hd. unfold greedy_channel_route_packet, greedy_path_route_packet.
  rewrite Hs, Hd. simpl. split; by rewrite decide_True.
Qed.

(** Away from it none does. *)
Lemma route_packet_not_arrived get_distance find_paths
    (current_address : Address) (packet : Packet Address) :
  current_address ≠ destination packet ->
  greedy_channel_route_packet total_occupancy randint _nodes get_distance
    current_address packet ≠ Return None
  /\ greedy_path_route_packet total_occupancy randint _nodes find_paths
       current_address packet ≠ Return None.
Proof.
  intros Hne. unfold greedy_channel_route_packet, greedy_path_route_packet.
  split.
  all: repeat (match goal with
               | |- context [require ?b] => destruct b; simpl; [|discriminate]
               end).
  all: rewrite decide_False by done.
  all: repeat (match goal with
               | |- (?m ≫= _) ≠ _ => destruct m; simpl; [|discriminate]
               end).
  all: discriminate.
Qed.

Lemma for_in_invariant {A Acc} (I : Acc -> Prop) (l : list A)
    (body : Acc -> A -> Result Acc) (acc r : Acc) :
  (forall acc x acc', x ∈ l -> I acc -> body acc x = Return acc' -> I acc') ->
  I acc -> for_in l body acc = Return r -> I r.
Proof.
  revert acc. induction l as [|x l IH]; intros acc Hbody HI Hrun; simpl in Hrun.
  { by injection Hrun as <-. }
  destruct (body acc x) as [acc'|e] eqn:Hx; simpl in Hrun; [|done].
  apply (IH acc'); [|by eapply Hbody; [apply list_elem_of_here|..]|done].
  intros acc1 y acc2 Hy. apply Hbody. by apply list_elem_of_further.
Qed.

(** A channel that a greedy-channel [route_packet] returns is the channel
    that a neighbour of the current node holds for the current address. *)
Lemma greedy_channel_route_packet_incident get_distance
    (current_address : Address) (packet : Packet Address) (channel : Channel) :
  greedy_channel_route_packet total_occupancy randint _nodes get_distance
    current_address packet = Return (Some channel) ->
  exists curr_node address node,
    _nodes !! current_address = Some curr_node
    /\ address ∈ (channels curr_node).*1
    /\ _nodes !! address = Some node
    /\ channels node !! current_address = Some channel.
Proof.
  unfold greedy_channel_route_packet.
  repeat (match goal with
          | |- context [require ?b] => destruct b; simpl; [|discriminate]
          end).
  case_decide; [discriminate|].
  destruct (getkey _nodes current_address) as [curr_node|e] eqn:Hget;
    simpl; [|discriminate].
  assert (_nodes !! current_address = Some curr_node) as Hcur.
  { unfold getkey in Hget. destruct (_nodes !! current_address); [|done].
    by injection Hget as ->. }
  destruct (for_in _ _ _) as [channels_lst|e] eqn:Hfor; simpl; [|discriminate].
  destruct (greedy_channel_select _ _ _).1 as [c|e] eqn:Hsel; simpl; [|discriminate].
  intros [= ->].
  apply greedy_channel_select_returns_candidate in Hsel as [d Hd].
  exists curr_node.
  pose (I := fun lst : list (Z * Channel) =>
          forall d, (d, channel) ∈ lst ->
            exists address node, address ∈ (channels curr_node).*1
              /\ _nodes !! address = Some node
              /\ channels node !! current_address = Some channel).
  assert (I channels_lst) as Hinv.
  { eapply (for_in_invariant I); [| |exact Hfor]; unfold I.
    - intros lst address' lst' Hin Hlst Hstep d' Hd'.
      unfold getkey in Hstep.
      destruct (_nodes !! address') as [node|] eqn:Hnode; simpl in Hstep; [|done].
      destruct (channels node !! current_address) as [ch|] eqn:Hch;
        simpl in Hstep; [|done].
      destruct (get_distance _ _) as [d''|]; simpl in Hstep; [|done].
      injection Hstep as <-.
      apply elem_of_app in Hd' as [Hd'|Hd']; [by eapply Hlst|].
      apply list_elem_of_singleton in Hd'. injection Hd' as -> ->.
      by exists address', node.
    - intros d' Hd'. by apply not_elem_of_nil in Hd'. }
  destruct (Hinv d Hd) as (address' & node & ? & ? & ?).
  by exists address', node.
Qed.

(** A channel that a greedy-path [route_packet] returns is the first
    channel of one of the paths [find_paths] handed over. *)
Lemma greedy_path_route_packet_head find_paths
    (current_address : Address) (packet : Packet Address) (channel : Channel) :
  greedy_path_route_packet total_occupancy randint _nodes find_paths
    current_address packet = Return (Some channel) ->
  exists paths p,
    find_paths current_address (destination packet) = Return paths
    /\ p ∈ paths /\ head p = Some channel.
Proof.
  unfold greedy_path_route_packet.
  repeat (match goal with
          | |- context [require ?b] => destruct b; simpl; [|discriminate]
          end).
  case_decide; [discriminate|].
  destruct (find_paths _ _) as [paths|e]; simpl; [|discriminate].
  destruct (greedy_path_select _ _ _).1 as [c|e] eqn:Hsel; simpl; [|discriminate].
  intros [= ->].
  apply greedy_path_select_returns_head in Hsel as (p & Hp & Hhead).
  by exists paths, p.
Qed.
End Routing.

(** C5: on the ring of size 6 with idle channels, a packet at node 1 bound
    for node 4 has two tied candidates; when [random.randint(0, 2)] draws 2
    [route_packet] raises [IndexError] and returns no channel, in the
    greedy-channel strategy and, on the two shortest paths, in the
    greedy-path strategy. *)
Theorem route_packet_tie_raises :
  let idle := fun _ : Z * Z => 0 in
  let draw_top := fun _ b : Z => b in
  let packet := mkPacket 0 1 4 in
  let find_paths := fun _ _ : Z =>
    Return [[link 1 2; link 2 3; link 3 4]; [link 1 0; link 0 5; link 5 4]] in
  (1 : Z) ≠ destination packet
  /\ GreedyChannelRing.route_packet idle draw_top (ring 6) 1 packet
     = Raise IndexError
  /\ GreedyPathRing.route_packet idle draw_top (ring 6) find_paths 1 packet
     = Raise IndexError.
Proof. repeat split; vm_compute; try reflexivity; discriminate. Qed.

(** * Further properties *)

(** ** Distances *)

Section MoreDistances.
Context {Channel : Type}.

(** X1: on a ring whose nodes carry the addresses below the node count [k],
    [get_distance] from a lower to a higher address is the shorter arc
    [min(n2 - n1, k - (n2 - n1))]: it lies between 0 and [k / 2] and is 0
    only between an address and itself. *)
Theorem ring_get_distance_upwards (_nodes : gmap Z (Node Z Channel)) (n1 n2 : Z) :
  contains _nodes n1 = true -> contains _nodes n2 = true ->
  0 <= n1 -> n1 <= n2 -> n2 < Z.of_nat (size _nodes) ->
  exists d, GreedyChannelRing.get_distance _nodes n1 n2 = Return d
    /\ d = Z.min (n2 - n1) (Z.of_nat (size _nodes) - (n2 - n1))
    /\ 0 <= d <= Z.of_nat (size _nodes) / 2
    /\ (d = 0 <-> n1 = n2).
Proof.
  intros H1 H2 Hlo Hle Hhi. unfold GreedyChannelRing.get_distance.
  rewrite H1, H2. simpl.
  assert (forall d, d = Z.min (n2 - n1) (Z.of_nat (size _nodes) - (n2 - n1)) ->
            0 <= d <= Z.of_nat (size _nodes) / 2) as Hhalf.
  { intros d ->. split; [lia|].
    apply Z.div_le_lower_bound; lia. }
  repeat case_decide; eexists; split; try reflexivity.
  all: split; [lia|]; split; [apply Hhalf; lia|]; lia.
Qed.

(** X2: between two different addresses of such a ring the downward
    direction is negative: from the higher address [get_distance] returns
    [n1 - n2 < 0] where the upward direction is positive, so the metric is
    symmetric on no pair of distinct nodes. *)
Theorem ring_get_distance_downwards (_nodes : gmap Z (Node Z Channel)) (n1 n2 : Z) :
  contains _nodes n1 = true -> contains _nodes n2 = true ->
  0 <= n1 -> n1 < n2 -> n2 < Z.of_nat (size _nodes) ->
  GreedyChannelRing.get_distance _nodes n2 n1 = Return (n1 - n2)
  /\ n1 - n2 < 0
  /\ exists d, GreedyChannelRing.get_distance _nodes n1 n2 = Return d /\ 0 < d.
Proof.
  intros H1 H2 Hlo Hlt Hhi. unfold GreedyChannelRing.get_distance.
  rewrite H1, H2. simpl.
  split; [repeat case_decide; f_equal; lia|]. split; [lia|].
  repeat case_decide; eexists; (split; [reflexivity|lia]).
Qed.

Lemma get_ring_distance_nonneg (_nodes : gmap (Z * Z) (Node (Z * Z) Channel))
    (a b : Z) :
  0 <= GreedyChannelTorus.get_ring_distance _nodes a b.
Proof. unfold GreedyChannelTorus.get_ring_distance. repeat case_decide; lia. Qed.

(** X3: the torus helper [get_ring_distance] never returns a negative
    number, so [get_distance] between two nodes of the torus is never
    negative either. *)
Theorem torus_get_distance_nonneg (_nodes : gmap (Z * Z) (Node (Z * Z) Channel))
    (n1 n2 : Z * Z) :
  contains _nodes n1 = true -> contains _nodes n2 = true ->
  0 <= GreedyChannelTorus.get_ring_distance _nodes n1.1 n2.1
  /\ 0 <= GreedyChannelTorus.get_ring_distance _nodes n1.2 n2.2
  /\ exists d, GreedyChannelTorus.get_distance _nodes n1 n2 = Return d /\ 0 <= d.
Proof.
  intros H1 H2.
  pose proof (get_ring_distance_nonneg _nodes) as Hnn.
  split; [apply Hnn|]. split; [apply Hnn|].
  rewrite torus_get_distance_sum by done. eexists. split; [reflexivity|].
  pose proof (Hnn n1.1 n2.1). pose proof (Hnn n1.2 n2.2). lia.
Qed.

(** X4: when neither coordinate difference exceeds half the number of nodes
    of the torus, as on every [k x k] torus, [get_distance] is the plain
    Manhattan distance [|x_d - x_s| + |y_d - y_s|], with no wrap-around, and
    is the same in both directions. *)
Theorem torus_get_distance_manhattan (_nodes : gmap (Z * Z) (Node (Z * Z) Channel))
    (n1 n2 : Z * Z) :
  contains _nodes n1 = true -> contains _nodes n2 = true ->
  2 * Z.abs (n2.1 - n1.1) <= Z.of_nat (size _nodes) ->
  2 * Z.abs (n2.2 - n1.2) <= Z.of_nat (size _nodes) ->
  GreedyChannelTorus.get_distance _nodes n1 n2
  = Return (Z.abs (n2.1 - n1.1) + Z.abs (n2.2 - n1.2))
  /\ GreedyChannelTorus.get_distance _nodes n2 n1
     = GreedyChannelTorus.get_distance _nodes n1 n2.
Proof.
  intros H1 H2 Hx Hy.
  assert (forall a b, 2 * Z.abs (b - a) <= Z.of_nat (size _nodes) ->
            GreedyChannelTorus.get_ring_distance _nodes a b = Z.abs (b - a)) as Hflat.
  { intros a b Hab. unfold GreedyChannelTorus.get_ring_distance.
    repeat case_decide; lia. }
  rewrite !torus_get_distance_sum by done.
  rewrite (Hflat n1.1 n2.1), (Hflat n1.2 n2.2) by done.
  rewrite (Hflat n2.1 n1.1), (Hflat n2.2 n1.2) by lia.
  split; [reflexivity|]. f_equal. lia.
Qed.

(** X5: on any network [GreedyChannelStar.get_distance] is symmetric. *)
Theorem star_get_distance_symmetric (_nodes : gmap Z (Node Z Channel)) (n1 n2 : Z) :
  contains _nodes n1 = true -> contains _nodes n2 = true ->
  GreedyChannelStar.get_distance _nodes n1 n2
  = GreedyChannelStar.get_distance _nodes n2 n1.
Proof.
  intros H1 H2.
  destruct (decide (n1 = n2)) as [Heq|Hne]; [by subst|].
  rewrite !star_get_distance_value by done.
  rewrite (decide_False (P := n1 = n2)), (decide_False (P := n2 = n1)) by congruence.
  by rewrite orb_comm.
Qed.
End MoreDistances.

Lemma ring_get_distance_upwards_witness :
  exists d, GreedyChannelRing.get_distance (ring 5) 1 4 = Return d
    /\ d = Z.min (4 - 1) (Z.of_nat (size (ring 5)) - (4 - 1))
    /\ 0 <= d <= Z.of_nat (size (ring 5)) / 2
    /\ (d = 0 <-> 1 = 4).
Proof.
  apply (ring_get_distance_upwards (ring 5) 1 4); vm_compute; congruence.
Defined.

Lemma ring_get_distance_downwards_witness :
  GreedyChannelRing.get_distance (ring 5) 4 1 = Return (1 - 4)
  /\ 1 - 4 < 0
  /\ exists d, GreedyChannelRing.get_distance (ring 5) 1 4 = Return d /\ 0 < d.
Proof.
  apply (ring_get_distance_downwards (ring 5) 1 4); vm_compute; congruence.
Defined.

Lemma torus_get_distance_nonneg_witness :
  0 <= GreedyChannelTorus.get_ring_distance (torus 3) 2 0
  /\ 0 <= GreedyChannelTorus.get_ring_distance (torus 3) 1 2
  /\ exists d, GreedyChannelTorus.get_distance (torus 3) (2, 1) (0, 2) = Return d
       /\ 0 <= d.
Proof.
  apply (torus_get_distance_nonneg (torus 3) (2, 1) (0, 2)); vm_compute; reflexivity.
Defined.

Lemma torus_get_distance_manhattan_witness :
  GreedyChannelTorus.get_distance (torus 3) (2, 1) (0, 2)
  = Return (Z.abs (0 - 2) + Z.abs (2 - 1))
  /\ GreedyChannelTorus.get_distance (torus 3) (0, 2) (2, 1)
     = GreedyChannelTorus.get_distance (torus 3) (2, 1) (0, 2).
Proof.
  apply (torus_get_distance_manhattan (torus 3) (2, 1) (0, 2));
    vm_compute; congruence.
Defined.

Lemma star_get_distance_symmetric_witness :
  GreedyChannelStar.get_distance (star [0] [1; 2; 3]) 0 2
  = GreedyChannelStar.get_distance (star [0] [1; 2; 3]) 2 0.
Proof.
  apply (star_get_distance_symmetric (star [0] [1; 2; 3]) 0 2); vm_compute; reflexivity.
Defined.

(** The spec's star scenario has its hub at the lowest address. *)
Lemma star_1_3_hubs_first (a : Z) :
  contains (star [0] [1; 2; 3]) a = true ->
  (GreedyChannelStar.is_hub (star [0] [1; 2; 3]) a = true
   <-> 0 <= a < GreedyChannelStar.count_central (star [0] [1; 2; 3])).
Proof.
  intros Ha. rewrite star_1_3_count.
  assert (a ∈ [0; 1; 2; 3]) as Hin.
  { apply bool_decide_eq_true_1 in Ha as [node Hnode]. unfold star in Hnode.
    apply elem_of_list_to_map_2, (list_elem_of_fmap_2 fst) in Hnode. exact Hnode. }
  repeat (apply elem_of_cons in Hin as [->|Hin]);
    [..|by apply not_elem_of_nil in Hin].
  1: split; [intros _; lia|intros _; vm_compute; reflexivity].
  all: split; [vm_compute; discriminate|lia].
Qed.

Lemma star_get_distance_hubs_first_witness :
  GreedyChannelStar.get_distance (star [0] [1; 2; 3]) 0 2
  = Return (if GreedyChannelStar.is_hub (star [0] [1; 2; 3]) 0
               || GreedyChannelStar.is_hub (star [0] [1; 2; 3]) 2
            then 1 else 2).
Proof.
  apply (star_get_distance_hubs_first (star [0] [1; 2; 3]) 0 2 star_1_3_hubs_first);
    vm_compute; congruence.
Defined.

(** ** Selection *)

Section MoreSelection.
Context {Channel : Type} `{EqDecision Channel}.
Variable total_occupancy : Channel -> Z.
Variable randint : Z -> Z -> Z.

(** X7: on a non-empty list of candidates at non-negative distances, and
    with a draw of [random.randint(0, n)] other than [n] itself,
    [greedy_channel_select] returns the channel of one of the candidates it
    was passed. *)
Theorem greedy_channel_select_chooses (channels : list (Z * Channel)) :
  channels ≠ [] ->
  (forall t, t ∈ channels -> 0 <= t.1) ->
  (forall n, 1 < n -> 0 <= randint 0 n < n) ->
  exists c d, (greedy_channel_select total_occupancy randint channels).1 = Return c
    /\ (d, c) ∈ channels.
Proof.
  intros Hne Hpos Hdraw.
  destruct (greedy_channel_select_returns total_occupancy randint channels)
    as [c Hc]; [done..|].
  destruct (greedy_channel_select_returns_candidate _ _ _ _ Hc) as [d Hd].
  by exists c, d.
Qed.

(** X8: on a non-empty list of non-empty paths, with the same proviso on
    the draw, [greedy_path_select] returns the first channel of one of the
    paths it was passed. *)
Theorem greedy_path_select_chooses (paths : list (list Channel)) :
  paths ≠ [] ->
  (forall p, p ∈ paths -> p ≠ []) ->
  (forall n, 1 < n -> 0 <= randint 0 n < n) ->
  exists c p, (greedy_path_select total_occupancy randint paths).1 = Return c
    /\ p ∈ paths /\ head p = Some c.
Proof.
  intros Hne Hpaths Hdraw.
  destruct (greedy_path_select_returns total_occupancy randint paths)
    as [c Hc]; [done..|].
  destruct (greedy_path_select_returns_head _ _ _ _ Hc) as (p & Hp & Hhead).
  by exists c, p.
Qed.
End MoreSelection.

Lemma greedy_channel_select_chooses_witness :
  exists c d,
    (greedy_channel_select (occupancies [0; 2]) (fun _ _ => 0)
       [(3, 0%nat); (1, 1%nat)]).1 = Return c
    /\ (d, c) ∈ [(3, 0%nat); (1, 1%nat)].
Proof.
  apply (greedy_channel_select_chooses (occupancies [0; 2]) (fun _ _ => 0)
           [(3, 0%nat); (1, 1%nat)]).
  - discriminate.
  - intros t Ht. repeat (apply elem_of_cons in Ht as [->|Ht]); simpl; try lia.
    by apply not_elem_of_nil in Ht.
  - intros n Hn. lia.
Defined.

Lemma greedy_path_select_chooses_witness :
  exists c p,
    (greedy_path_select (occupancies [0; 2]) (fun _ _ => 0)
       [[0%nat; 1%nat]; [1%nat]]).1 = Return c
    /\ p ∈ [[0%nat; 1%nat]; [1%nat]] /\ head p = Some c.
Proof.
  apply (greedy_path_select_chooses (occupancies [0; 2]) (fun _ _ => 0)
           [[0%nat; 1%nat]; [1%nat]]).
  - discriminate.
  - intros p Hp. repeat (apply elem_of_cons in Hp as [->|Hp]); try discriminate.
    by apply not_elem_of_nil in Hp.
  - intros n Hn. lia.
Defined.

Lemma getitem_head {A} (x : A) (l : list A) : getitem (x :: l) 0 = Return x.
Proof.
  unfold getitem. cbv zeta. destruct (decide (0 < 0)); [lia|].
  destruct (decide (0 <= 0 < _)) as [|Hn]; [reflexivity|].
  exfalso. apply Hn. simpl length. lia.
Qed.

Section FewCandidates.
Context {Channel : Type} `{EqDecision Channel}.
Variable total_occupancy : Channel -> Z.
Variable randint : Z -> Z -> Z.

(** X9: a single candidate is returned as it is, and of two candidates with
    different scores [greedy_channel_select] returns the channel of the one
    with the smaller score and leaves only that candidate in the list; no
    draw is made in either case. *)
Theorem greedy_channel_select_one_or_two (d1 d2 : Z) (c1 c2 : Channel) :
  0 <= d1 -> 0 <= d2 -> d1 + total_occupancy c1 ≠ d2 + total_occupancy c2 ->
  greedy_channel_select total_occupancy randint [(d1, c1)] = (Return c1, [(d1, c1)])
  /\ greedy_channel_select total_occupancy randint [(d1, c1); (d2, c2)]
     = if decide (d1 + total_occupancy c1 < d2 + total_occupancy c2)
       then (Return c1, [(d1, c1)]) else (Return c2, [(d2, c2)]).
Proof.
  intros H1 H2 Hne.
  unfold greedy_channel_select, for_each, py_len, py_getitem, py_remove, lift, require.
  unfold mbind, Py_bind, mret, Py_ret. simpl.
  rewrite !bool_decide_eq_true_2 by lia. simpl.
  split; repeat (case_decide; simpl; try lia; try congruence).
Qed.

(** X10: likewise a single non-empty path yields its first channel, and of
    two non-empty paths with different scores [greedy_path_select] returns
    the first channel of the one with the smaller score and leaves only that
    path in the list; no draw is made. *)
Theorem greedy_path_select_one_or_two (c1 c2 : Channel) (r1 r2 : list Channel) :
  path_score_spec total_occupancy (c1 :: r1)
    ≠ path_score_spec total_occupancy (c2 :: r2) ->
  greedy_path_select total_occupancy randint [c1 :: r1] = (Return c1, [c1 :: r1])
  /\ greedy_path_select total_occupancy randint [c1 :: r1; c2 :: r2]
     = if decide (path_score_spec total_occupancy (c1 :: r1)
                  < path_score_spec total_occupancy (c2 :: r2))
       then (Return c1, [c1 :: r1]) else (Return c2, [c2 :: r2]).
Proof.
  intros Hne.
  assert (c2 :: r2 ≠ c1 :: r1) as Hdiff by (intros E; by rewrite E in Hne).
  pose proof (compute_path_score_spec total_occupancy (c1 :: r1)) as E1.
  pose proof (compute_path_score_spec total_occupancy (c2 :: r2)) as E2.
  specialize (E1 ltac:(done)). specialize (E2 ltac:(done)).
  revert Hne E1 E2.
  generalize (path_score_spec total_occupancy (c1 :: r1)).
  generalize (path_score_spec total_occupancy (c2 :: r2)).
  intros s2 s1 Hne E1 E2.
  unfold greedy_path_select, for_each, py_len, py_getitem, py_remove, lift, require.
  unfold mbind, Py_bind, mret, Py_ret.
  split.
  all: repeat (first [ progress rewrite ?E1, ?E2, ?getitem_head
                     | progress cbn -[compute_path_score]
                     | case_decide ]).
  all: try lia; try congruence.
Qed.
End FewCandidates.

Lemma greedy_channel_select_one_or_two_witness :
  let occ := occupancies [4; 0] in
  let draw := fun _ b : Z => b in
  greedy_channel_select occ draw [(1, 0%nat)] = (Return 0%nat, [(1, 0%nat)])
  /\ greedy_channel_select occ draw [(1, 0%nat); (2, 1%nat)]
     = if decide (1 + occ 0%nat < 2 + occ 1%nat)
       then (Return 0%nat, [(1, 0%nat)]) else (Return 1%nat, [(2, 1%nat)]).
Proof.
  intros occ draw.
  apply (greedy_channel_select_one_or_two occ draw 1 2 0%nat 1%nat);
    vm_compute; congruence.
Defined.

Lemma greedy_path_select_one_or_two_witness :
  let occ := occupancies [4; 0] in
  let draw := fun _ b : Z => b in
  greedy_path_select occ draw [[0%nat]] = (Return 0%nat, [[0%nat]])
  /\ greedy_path_select occ draw [[0%nat]; [1%nat; 1%nat]]
     = if decide (path_score_spec occ [0%nat] < path_score_spec occ [1%nat; 1%nat])
       then (Return 0%nat, [[0%nat]]) else (Return 1%nat, [[1%nat; 1%nat]]).
Proof.
  intros occ draw.
  apply (greedy_path_select_one_or_two occ draw 0%nat 1%nat [] [1%nat]).
  vm_compute. congruence.
Defined.

(** ** Routing on a linked network *)

Section LinkedRouting.
Context {Address : Type} `{Countable Address}.
Context {Channel : Type} `{EqDecision Channel}.
Variable total_occupancy : Channel -> Z.
Variable randint : Z -> Z -> Z.
Variable _nodes : gmap Address (Node Address Channel).

(** The candidate list that [route_packet] builds holds, in order, one
    candidate per neighbour: its distance to the destination and the channel
    the neighbour holds for the current address. *)
Lemma for_in_candidates (get_distance : Address -> Address -> Result Z)
    (current_address dest : Address) (l : list Address) (acc : list (Z * Channel)) :
  (forall a, a ∈ l -> exists node ch d,
      _nodes !! a = Some node /\ channels node !! current_address = Some ch
      /\ get_distance a dest = Return d) ->
  exists r,
    for_in l
      (fun channels_lst address =>
         node ← getkey _nodes address;
         channel ← getkey (channels node) current_address;
         d ← get_distance address dest;
         Return (channels_lst ++ [(d, channel)])) acc = Return (acc ++ r)
    /\ length r = length l
    /\ (forall t, t ∈ r -> exists a, a ∈ l /\ get_distance a dest = Return t.1)
    /\ (forall a, a ∈ l -> exists t, t ∈ r /\ get_distance a dest = Return t.1).
Proof.
  revert acc. induction l as [|a l IH]; intros acc Hl; simpl.
  { exists []. rewrite app_nil_r. repeat split; intros ? Hin;
      by apply not_elem_of_nil in Hin. }
  destruct (Hl a) as (node & ch & d & Hnode & Hch & Hd); [apply list_elem_of_here|].
  unfold getkey. rewrite Hnode. simpl. rewrite Hch. simpl. rewrite Hd. simpl.
  destruct (IH (acc ++ [(d, ch)])) as (r & Hrun & Hlen & Hfrom & Hto).
  { intros a' Ha'. apply Hl. by apply list_elem_of_further. }
  unfold getkey in Hrun. rewrite Hrun.
  exists ((d, ch) :: r). split; [by rewrite <- app_assoc|].
  split; [simpl; by rewrite Hlen|]. split.
  - intros t Ht. apply elem_of_cons in Ht as [->|Ht].
    + exists a. split; [apply list_elem_of_here|done].
    + destruct (Hfrom t Ht) as (a' & Ha' & Hd'). exists a'.
      split; [by apply list_elem_of_further|done].
  - intros a' Ha'. apply elem_of_cons in Ha' as [->|Ha'].
    + exists (d, ch). split; [apply list_elem_of_here|done].
    + destruct (Hto a' Ha') as (t & Ht & Hd'). exists t.
      split; [by apply list_elem_of_further|done].
Qed.

(** Away from the destination, on a node with at least one neighbour, all
    neighbours linked back and at non-negative distances, a greedy-channel
    [route_packet] returns a channel, provided the draw is not the top one. *)
Lemma greedy_channel_route_packet_returns
    (get_distance : Address -> Address -> Result Z)
    (current_address : Address) (packet : Packet Address)
    (curr_node : Node Address Channel) :
  contains _nodes current_address = true ->
  contains _nodes (source packet) = true ->
  contains _nodes (destination packet) = true ->
  current_address ≠ destination packet ->
  _nodes !! current_address = Some curr_node ->
  channels curr_node ≠ [] ->
  (forall a, a ∈ (channels curr_node).*1 -> exists node ch d,
      _nodes !! a = Some node /\ channels node !! current_address = Some ch
      /\ get_distance a (destination packet) = Return d /\ 0 <= d) ->
  (forall n, 1 < n -> 0 <= randint 0 n < n) ->
  exists channel,
    greedy_channel_route_packet total_occupancy randint _nodes get_distance
      current_address packet = Return (Some channel).
Proof.
  intros Hc Hs Hd Hne Hcur Hnb Hlinked Hdraw.
  unfold greedy_channel_route_packet. rewrite Hc, Hs, Hd. simpl.
  rewrite decide_False by done.
  assert (getkey _nodes current_address = Return curr_node) as Hget
    by (unfold getkey; by rewrite Hcur).
  rewrite Hget. simpl.
  destruct (for_in_candidates get_distance current_address (destination packet)
              (channels curr_node).*1 []) as (r & Hrun & Hlen & Hfrom & _).
  { intros a Ha. destruct (Hlinked a Ha) as (node & ch & d & ? & ? & ? & ?).
    by exists node, ch, d. }
  rewrite Hrun. simpl.
  destruct (greedy_channel_select_returns total_occupancy randint r) as [c Hsel].
  - intros ->. rewrite length_fmap in Hlen. by destruct (channels curr_node).
  - intros t Ht. destruct (Hfrom t Ht) as (a & Ha & Hda).
    destruct (Hlinked a Ha) as (node & ch & d & _ & _ & Hd' & Hpos).
    rewrite Hd' in Hda. by injection Hda as <-.
  - done.
  - rewrite Hsel. simpl. by exists c.
Qed.

(** When a neighbour is at a negative distance, the candidate list violates
    the selector's precondition and [route_packet] raises. *)
Lemma greedy_channel_route_packet_negative
    (get_distance : Address -> Address -> Result Z)
    (current_address : Address) (packet : Packet Address)
    (curr_node : Node Address Channel) (a0 : Address) (d0 : Z) :
  contains _nodes current_address = true ->
  contains _nodes (source packet) = true ->
  contains _nodes (destination packet) = true ->
  current_address ≠ destination packet ->
  _nodes !! current_address = Some curr_node ->
  (forall a, a ∈ (channels curr_node).*1 -> exists node ch d,
      _nodes !! a = Some node /\ channels node !! current_address = Some ch
      /\ get_distance a (destination packet) = Return d) ->
  a0 ∈ (channels curr_node).*1 ->
  get_distance a0 (destination packet) = Return d0 -> d0 < 0 ->
  greedy_channel_route_packet total_occupancy randint _nodes get_distance
    current_address packet = Raise ContractError.
Proof.
  intros Hc Hs Hd Hne Hcur Hlinked Ha0 Hd0 Hneg.
  unfold greedy_channel_route_packet. rewrite Hc, Hs, Hd. simpl.
  rewrite decide_False by done.
  assert (getkey _nodes current_address = Return curr_node) as Hget
    by (unfold getkey; by rewrite Hcur).
  rewrite Hget. simpl.
  destruct (for_in_candidates get_distance current_address (destination packet)
              (channels curr_node).*1 [] Hlinked) as (r & Hrun & Hlen & _ & Hto).
  rewrite Hrun. simpl.
  destruct (Hto a0 Ha0) as (t & Ht & Hdt).
  rewrite Hd0 in Hdt. injection Hdt as Hdt.
  unfold greedy_channel_select. erewrite run_bind by reflexivity.
  rewrite bool_decide_eq_true_2; cycle 1.
  { intros ->. by apply not_elem_of_nil in Ht. }
  erewrite run_bind by reflexivity.
  replace (forallb _ r) with false; [reflexivity|].
  symmetry. apply not_true_is_false. intros Hall.
  rewrite forallb_forall in Hall. specialize (Hall t).
  rewrite <- list_elem_of_In in Hall. specialize (Hall Ht).
  apply bool_decide_eq_true_1 in Hall. lia.
Qed.
End LinkedRouting.

(** Every neighbour listed by [curr_node] is a node of the network that
    holds a channel for [current_address] in its turn. *)
Definition linked_back `{Countable Address} {Channel : Type}
    (_nodes : gmap Address (Node Address Channel))
    (current_address : Address) (curr_node : Node Address Channel) : Prop :=
  forall a, a ∈ (channels curr_node).*1 ->
    exists node, _nodes !! a = Some node
      /\ is_Some (channels node !! current_address).

Lemma contains_lookup `{Countable Address} {V : Type}
    (d : gmap Address V) (a : Address) (v : V) :
  d !! a = Some v -> contains d a = true.
Proof. intros Ha. apply bool_decide_eq_true_2. by exists v. Qed.

Section NoneIffArrived.
Context {Address : Type} `{Countable Address}.
Context {Channel : Type} `{EqDecision Channel}.
Variable total_occupancy : Channel -> Z.
Variable randint : Z -> Z -> Z.
Variable _nodes : gmap Address (Node Address Channel).

Lemma greedy_channel_route_packet_none get_distance
    (current_address : Address) (packet : Packet Address) :
  contains _nodes current_address = true ->
  contains _nodes (source packet) = true ->
  contains _nodes (destination packet) = true ->
  greedy_channel_route_packet total_occupancy randint _nodes get_distance
    current_address packet = Return None
  <-> current_address = destination packet.
Proof.
  intros Hc Hs Hd. split.
  - intros Hnone. destruct (decide (current_address = destination packet)) as [|Hne];
      [done|]. exfalso.
    by destruct (route_packet_not_arrived total_occupancy randint _nodes get_distance
                   (fun _ _ => Return []) current_address packet Hne).
  - intros ->.
    by destruct (route_packet_arrived total_occupancy randint _nodes get_distance
                   (fun _ _ => Return []) packet).
Qed.

Lemma greedy_path_route_packet_none find_paths
    (current_address : Address) (packet : Packet Address) :
  contains _nodes current_address = true ->
  contains _nodes (source packet) = true ->
  contains _nodes (destination packet) = true ->
  greedy_path_route_packet total_occupancy randint _nodes find_paths
    current_address packet = Return None
  <-> current_address = destination packet.
Proof.
  intros Hc Hs Hd. split.
  - intros Hnone. destruct (decide (current_address = destination packet)) as [|Hne];
      [done|]. exfalso.
    by destruct (route_packet_not_arrived total_occupancy randint _nodes
                   (fun _ _ => Return 0) find_paths current_address packet Hne).
  - intros ->.
    by destruct (route_packet_arrived total_occupancy randint _nodes
                   (fun _ _ => Return 0) find_paths packet).
Qed.
End NoneIffArrived.

Section ClassRouting.
Context {Channel : Type} `{EqDecision Channel}.
Variable total_occupancy : Channel -> Z.
Variable randint : Z -> Z -> Z.

(** X11: for nodes of the network, the torus and star strategies, in
    greedy-channel and in greedy-path mode, return [None] exactly when the
    current address is the packet's destination. *)
Theorem route_packet_none_iff_arrived
    (torus_nodes : gmap (Z * Z) (Node (Z * Z) Channel))
    (star_nodes : gmap Z (Node Z Channel))
    torus_find_paths star_find_paths
    (torus_current : Z * Z) (torus_packet : Packet (Z * Z))
    (star_current : Z) (star_packet : Packet Z) :
  contains torus_nodes torus_current = true ->
  contains torus_nodes (source torus_packet) = true ->
  contains torus_nodes (destination torus_packet) = true ->
  contains star_nodes star_current = true ->
  contains star_nodes (source star_packet) = true ->
  contains star_nodes (destination star_packet) = true ->
  (GreedyChannelTorus.route_packet total_occupancy randint torus_nodes
     torus_current torus_packet = Return None
   <-> torus_current = destination torus_packet)
  /\ (GreedyPathTorus.route_packet total_occupancy randint torus_nodes
        torus_find_paths torus_current torus_packet = Return None
      <-> torus_current = destination torus_packet)
  /\ (GreedyChannelStar.route_packet total_occupancy randint star_nodes
        star_current star_packet = Return None
      <-> star_current = destination star_packet)
  /\ (GreedyPathStar.route_packet total_occupancy randint star_nodes
        star_find_paths star_current star_packet = Return None
      <-> star_current = destination star_packet).
Proof.
  intros Ht1 Ht2 Ht3 Hs1 Hs2 Hs3.
  unfold GreedyChannelTorus.route_packet, GreedyPathTorus.route_packet,
    GreedyChannelStar.route_packet, GreedyPathStar.route_packet.
  split; [by apply greedy_channel_route_packet_none|].
  split; [by apply greedy_path_route_packet_none|].
  split; [by apply greedy_channel_route_packet_none|].
  by apply greedy_path_route_packet_none.
Qed.

(** X12: on the torus, away from the destination, at a node with at least
    one neighbour, all linked back, and with a draw other than the top one,
    [route_packet] returns a channel, and it is the channel that one of the
    neighbours holds for the current address. *)
Theorem torus_route_packet_returns
    (_nodes : gmap (Z * Z) (Node (Z * Z) Channel))
    (current_address : Z * Z) (packet : Packet (Z * Z))
    (curr_node : Node (Z * Z) Channel) :
  contains _nodes (source packet) = true ->
  contains _nodes (destination packet) = true ->
  current_address ≠ destination packet ->
  _nodes !! current_address = Some curr_node ->
  channels curr_node ≠ [] ->
  linked_back _nodes current_address curr_node ->
  (forall n, 1 < n -> 0 <= randint 0 n < n) ->
  exists channel a node,
    GreedyChannelTorus.route_packet total_occupancy randint _nodes
      current_address packet = Return (Some channel)
    /\ a ∈ (channels curr_node).*1
    /\ _nodes !! a = Some node
    /\ channels node !! current_address = Some channel.
Proof.
  intros Hs Hd Hne Hcur Hnb Hlinked Hdraw.
  unfold GreedyChannelTorus.route_packet.
  destruct (greedy_channel_route_packet_returns total_occupancy randint _nodes
              (GreedyChannelTorus.get_distance _nodes) current_address packet
              curr_node) as [channel Hret]; try done.
  { by eapply contains_lookup. }
  { intros a Ha. destruct (Hlinked a Ha) as (node & Hnode & ch & Hch).
    exists node, ch. eexists. split; [done|]. split; [done|].
    rewrite torus_get_distance_sum by (done || by eapply contains_lookup).
    split; [reflexivity|].
    pose proof (get_ring_distance_nonneg _nodes a.1 (destination packet).1).
    pose proof (get_ring_distance_nonneg _nodes a.2 (destination packet).2).
    lia. }
  destruct (greedy_channel_route_packet_incident _ _ _ _ _ _ _ Hret)
    as (curr_node' & a & node & Hcur' & Ha & Hnode & Hch).
  rewrite Hcur in Hcur'. injection Hcur' as <-.
  by exists channel, a, node.
Qed.

(** X13: the same on the star, whose distances are 0, 1 or 2. *)
Theorem star_route_packet_returns
    (_nodes : gmap Z (Node Z Channel))
    (current_address : Z) (packet : Packet Z) (curr_node : Node Z Channel) :
  contains _nodes (source packet) = true ->
  contains _nodes (destination packet) = true ->
  current_address ≠ destination packet ->
  _nodes !! current_address = Some curr_node ->
  channels curr_node ≠ [] ->
  linked_back _nodes current_address curr_node ->
  (forall n, 1 < n -> 0 <= randint 0 n < n) ->
  exists channel a node,
    GreedyChannelStar.route_packet total_occupancy randint _nodes
      current_address packet = Return (Some channel)
    /\ a ∈ (channels curr_node).*1
    /\ _nodes !! a = Some node
    /\ channels node !! current_address = Some channel.
Proof.
  intros Hs Hd Hne Hcur Hnb Hlinked Hdraw.
  unfold GreedyChannelStar.route_packet.
  destruct (greedy_channel_route_packet_returns total_occupancy randint _nodes
              (GreedyChannelStar.get_distance _nodes) current_address packet
              curr_node) as [channel Hret]; try done.
  { by eapply contains_lookup. }
  { intros a Ha. destruct (Hlinked a Ha) as (node & Hnode & ch & Hch).
    exists node, ch. eexists. split; [done|]. split; [done|].
    rewrite star_get_distance_value by (done || by eapply contains_lookup).
    split; [reflexivity|]. repeat case_match; lia. }
  destruct (greedy_channel_route_packet_incident _ _ _ _ _ _ _ Hret)
    as (curr_node' & a & node & Hcur' & Ha & Hnode & Hch).
  rewrite Hcur in Hcur'. injection Hcur' as <-.
  by exists channel, a, node.
Qed.

(** X14: on the ring, as soon as one neighbour of the current node has an
    address above the destination, its distance is negative, the candidate
    list fails the selector's precondition, and [route_packet] raises the
    contract failure instead of returning a channel. *)
Theorem ring_route_packet_contract_error
    (_nodes : gmap Z (Node Z Channel))
    (current_address : Z) (packet : Packet Z) (curr_node : Node Z Channel)
    (a0 : Z) :
  contains _nodes (source packet) = true ->
  contains _nodes (destination packet) = true ->
  current_address ≠ destination packet ->
  _nodes !! current_address = Some curr_node ->
  linked_back _nodes current_address curr_node ->
  a0 ∈ (channels curr_node).*1 ->
  destination packet < a0 ->
  GreedyChannelRing.route_packet total_occupancy randint _nodes
    current_address packet = Raise ContractError.
Proof.
  intros Hs Hd Hne Hcur Hlinked Ha0 Habove.
  unfold GreedyChannelRing.route_packet.
  destruct (Hlinked a0 Ha0) as (node0 & Hnode0 & _).
  eapply (greedy_channel_route_packet_negative total_occupancy randint _nodes
            (GreedyChannelRing.get_distance _nodes) current_address packet
            curr_node a0 (destination packet - a0)); try done.
  - by eapply contains_lookup.
  - intros a Ha. destruct (Hlinked a Ha) as (node & Hnode & ch & Hch).
    exists node, ch.
    destruct (Z_lt_le_dec (destination packet) a).
    + eexists. split; [done|]. split; [done|].
      apply ring_get_distance_descending; [by eapply contains_lookup|done|done].
    + eexists. split; [done|]. split; [done|].
      apply ring_get_distance_ascending; [by eapply contains_lookup|done|done].
  - apply ring_get_distance_descending; [by eapply contains_lookup|done|done].
  - lia.
Qed.

(** X15: in greedy-path mode, away from the destination, when [find_paths]
    hands over a non-empty list of non-empty paths and the draw is not the
    top one, the torus and star strategies return the first channel of one
    of these paths. *)
Theorem path_route_packet_returns
    (torus_nodes : gmap (Z * Z) (Node (Z * Z) Channel))
    (star_nodes : gmap Z (Node Z Channel))
    torus_find_paths star_find_paths
    (torus_current : Z * Z) (torus_packet : Packet (Z * Z))
    (star_current : Z) (star_packet : Packet Z)
    (torus_paths star_paths : list (list Channel)) :
  contains torus_nodes torus_current = true ->
  contains torus_nodes (source torus_packet) = true ->
  contains torus_nodes (destination torus_packet) = true ->
  contains star_nodes star_current = true ->
  contains star_nodes (source star_packet) = true ->
  contains star_nodes (destination star_packet) = true ->
  torus_current ≠ destination torus_packet ->
  star_current ≠ destination star_packet ->
  torus_find_paths torus_current (destination torus_packet) = Return torus_paths ->
  star_find_paths star_current (destination star_packet) = Return star_paths ->
  torus_paths ≠ [] -> star_paths ≠ [] ->
  (forall p, p ∈ torus_paths ++ star_paths -> p ≠ []) ->
  (forall n, 1 < n -> 0 <= randint 0 n < n) ->
  (exists c p, GreedyPathTorus.route_packet total_occupancy randint torus_nodes
       torus_find_paths torus_current torus_packet = Return (Some c)
     /\ p ∈ torus_paths /\ head p = Some c)
  /\ (exists c p, GreedyPathStar.route_packet total_occupancy randint star_nodes
        star_find_paths star_current star_packet = Return (Some c)
      /\ p ∈ star_paths /\ head p = Some c).
Proof.
  intros Ht1 Ht2 Ht3 Hs1 Hs2 Hs3 Htne Hsne Htp Hsp Htn Hsn Hpaths Hdraw.
  unfold GreedyPathTorus.route_packet, GreedyPathStar.route_packet,
    greedy_path_route_packet.
  rewrite Ht1, Ht2, Ht3, Hs1, Hs2, Hs3. simpl.
  rewrite !decide_False by done. rewrite Htp, Hsp. simpl.
  split.
  - destruct (greedy_path_select_returns total_occupancy randint torus_paths)
      as [c Hc]; [done| |done|].
    { intros p Hp. apply Hpaths, elem_of_app. by left. }
    destruct (greedy_path_select_returns_head _ _ _ _ Hc) as (p & Hp & Hhead).
    exists c, p. by rewrite Hc.
  - destruct (greedy_path_select_returns total_occupancy randint star_paths)
      as [c Hc]; [done| |done|].
    { intros p Hp. apply Hpaths, elem_of_app. by right. }
    destruct (greedy_path_select_returns_head _ _ _ _ Hc) as (p & Hp & Hhead).
    exists c, p. by rewrite Hc.
Qed.
End ClassRouting.

(** The star scenario with its channels named like those of a torus. *)
Definition star_1_3_wide : gmap Z (Node Z ((Z * Z) * (Z * Z))) :=
  (fun n => mkNode (address n)
              ((fun kc => (kc.1, ((kc.2.1, 0), (kc.2.2, 0)))) <$> channels n))
  <$> star [0] [1; 2; 3].

Lemma route_packet_none_iff_arrived_witness :
  let idle := fun _ : (Z * Z) * (Z * Z) => 0 in
  let draw := fun _ _ : Z => 0 in
  let no_paths := fun _ _ : Z * Z => Return [] in
  let no_paths' := fun _ _ : Z => Return [] in
  (GreedyChannelTorus.route_packet idle draw (torus 3) (0, 0) (mkPacket 7 (1, 1) (2, 0))
     = Return None <-> (0, 0) = destination (mkPacket 7 (1, 1) (2, 0)))
  /\ (GreedyPathTorus.route_packet idle draw (torus 3) no_paths (0, 0)
        (mkPacket 7 (1, 1) (2, 0)) = Return None
      <-> (0, 0) = destination (mkPacket 7 (1, 1) (2, 0)))
  /\ (GreedyChannelStar.route_packet idle draw star_1_3_wide 2 (mkPacket 8 1 2)
        = Return None <-> 2 = destination (mkPacket 8 1 2))
  /\ (GreedyPathStar.route_packet idle draw star_1_3_wide no_paths' 2 (mkPacket 8 1 2)
        = Return None <-> 2 = destination (mkPacket 8 1 2)).
Proof.
  intros idle draw no_paths no_paths'.
  apply (route_packet_none_iff_arrived idle draw (torus 3) star_1_3_wide
           no_paths no_paths' (0, 0) (mkPacket 7 (1, 1) (2, 0)) 2 (mkPacket 8 1 2));
    vm_compute; reflexivity.
Defined.

Lemma torus_3_linked_back : linked_back (torus 3) (0, 0) (torus_node 3 (0, 0)).
Proof.
  intros a Ha. vm_compute in Ha.
  repeat (apply elem_of_cons in Ha as [->|Ha]);
    [..|by apply not_elem_of_nil in Ha].
  all: eexists; split; [vm_compute; reflexivity|eexists; vm_compute; reflexivity].
Qed.

Lemma torus_route_packet_returns_witness :
  exists channel a node,
    GreedyChannelTorus.route_packet (fun _ => 0) (fun _ _ => 0) (torus 3)
      (0, 0) (mkPacket 7 (1, 1) (2, 0)) = Return (Some channel)
    /\ a ∈ (channels (torus_node 3 (0, 0))).*1
    /\ torus 3 !! a = Some node
    /\ channels node !! (0, 0) = Some channel.
Proof.
  apply (torus_route_packet_returns (fun _ => 0) (fun _ _ => 0) (torus 3)
           (0, 0) (mkPacket 7 (1, 1) (2, 0)) (torus_node 3 (0, 0))).
  - vm_compute; reflexivity.
  - vm_compute; reflexivity.
  - discriminate.
  - vm_compute; reflexivity.
  - discriminate.
  - exact torus_3_linked_back.
  - intros n Hn. lia.
Defined.

Lemma star_1_3_linked_back :
  linked_back (star [0] [1; 2; 3]) 0 (star_node [0] [1; 2; 3] true 0).
Proof.
  intros a Ha. vm_compute in Ha.
  repeat (apply elem_of_cons in Ha as [->|Ha]);
    [..|by apply not_elem_of_nil in Ha].
  all: eexists; split; [vm_compute; reflexivity|eexists; vm_compute; reflexivity].
Qed.

Lemma star_route_packet_returns_witness :
  exists channel a node,
    GreedyChannelStar.route_packet (fun _ => 0) (fun _ _ => 0) (star [0] [1; 2; 3])
      0 (mkPacket 8 1 2) = Return (Some channel)
    /\ a ∈ (channels (star_node [0] [1; 2; 3] true 0)).*1
    /\ star [0] [1; 2; 3] !! a = Some node
    /\ channels node !! 0 = Some channel.
Proof.
  apply (star_route_packet_returns (fun _ => 0) (fun _ _ => 0) (star [0] [1; 2; 3])
           0 (mkPacket 8 1 2) (star_node [0] [1; 2; 3] true 0)).
  - vm_compute; reflexivity.
  - vm_compute; reflexivity.
  - discriminate.
  - vm_compute; reflexivity.
  - discriminate.
  - exact star_1_3_linked_back.
  - intros n Hn. lia.
Defined.

Lemma ring_5_linked_back : linked_back (ring 5) 1 (ring_node 5 1).
Proof.
  intros a Ha. vm_compute in Ha.
  repeat (apply elem_of_cons in Ha as [->|Ha]);
    [..|by apply not_elem_of_nil in Ha].
  all: eexists; split; [vm_compute; reflexivity|eexists; vm_compute; reflexivity].
Qed.

Lemma ring_route_packet_contract_error_witness :
  GreedyChannelRing.route_packet (fun _ => 0) (fun _ _ => 0) (ring 5)
    1 (mkPacket 9 1 0) = Raise ContractError.
Proof.
  apply (ring_route_packet_contract_error (fun _ => 0) (fun _ _ => 0) (ring 5)
           1 (mkPacket 9 1 0) (ring_node 5 1) 2).
  - vm_compute; reflexivity.
  - vm_compute; reflexivity.
  - discriminate.
  - vm_compute; reflexivity.
  - exact ring_5_linked_back.
  - vm_compute. apply list_elem_of_further, list_elem_of_here.
  - simpl. lia.
Defined.

Lemma path_route_packet_returns_witness :
  let idle := fun _ : (Z * Z) * (Z * Z) => 0 in
  let draw := fun _ _ : Z => 0 in
  let torus_paths := [[link2 (0, 0) (2, 0)]; [link2 (0, 0) (1, 0); link2 (1, 0) (2, 0)]] in
  let star_paths := [[link2 (2, 0) (0, 0); link2 (0, 0) (3, 0)]] in
  let torus_find_paths := fun _ _ : Z * Z => Return torus_paths in
  let star_find_paths := fun _ _ : Z => Return star_paths in
  (exists c p, GreedyPathTorus.route_packet idle draw (torus 3) torus_find_paths
       (0, 0) (mkPacket 7 (1, 1) (2, 0)) = Return (Some c)
     /\ p ∈ torus_paths /\ head p = Some c)
  /\ (exists c p, GreedyPathStar.route_packet idle draw star_1_3_wide star_find_paths
        2 (mkPacket 8 1 3) = Return (Some c)
      /\ p ∈ star_paths /\ head p = Some c).
Proof.
  intros idle draw torus_paths star_paths torus_find_paths star_find_paths.
  apply (path_route_packet_returns idle draw (torus 3) star_1_3_wide
           torus_find_paths star_find_paths (0, 0) (mkPacket 7 (1, 1) (2, 0))
           2 (mkPacket 8 1 3) torus_paths star_paths);
    try (vm_compute; congruence).
  - intros p Hp. vm_compute in Hp.
    repeat (apply elem_of_cons in Hp as [->|Hp]); try discriminate.
    by apply not_elem_of_nil in Hp.
  - intros n Hn. unfold draw. lia.
Defined.

(** ** Reading a packet file *)

Lemma getitem_lookup {A} (l : list A) (i : nat) (z : Z) :
  z = Z.of_nat i ->
  getitem l z = match l !! i with Some x => Return x | None => Raise IndexError end.
Proof.
  intros ->. unfold getitem. cbv zeta. destruct (decide (Z.of_nat i < 0)); [lia|].
  rewrite Nat2Z.id. destruct (l !! i) as [x|] eqn:Hl.
  - apply lookup_lt_Some in Hl. rewrite decide_True by lia. done.
  - by destruct (decide _).
Qed.

(** Turn [row[0]] to [row[4]] into lookups. *)
Ltac lookup_fields row :=
  rewrite ?(getitem_lookup row 0 0 eq_refl), ?(getitem_lookup row 1 1 eq_refl),
    ?(getitem_lookup row 2 2 eq_refl), ?(getitem_lookup row 3 3 eq_refl),
    ?(getitem_lookup row 4 4 eq_refl).

Section ReadPacketCsvFacts.
Context {Network : Type}.
Variable int_value : string -> option Z.
Variable new : string -> list Z -> Result Network.

(** Field [i] of a row exists and [int] reads it as [n]. *)
Definition field_int (row : list string) (i : nat) (n : Z) : Prop :=
  exists field, row !! i = Some field /\ int_value field = Some n.

(** What one row contributes when it is read with [counter] packets
    before it. *)
Definition reads_row (network_type : string) (counter : Z) (row : list string)
    (entry : Z * Packet NodeAddress) : Prop :=
  exists timestamp source destination,
    entry = (timestamp, mkPacket counter source destination)
    /\ field_int row 0 timestamp
    /\ if bool_decide (network_type ∈ torus_types) then
         exists x_s y_s x_d y_d,
           field_int row 1 x_s /\ field_int row 2 y_s
           /\ field_int row 3 x_d /\ field_int row 4 y_d
           /\ source = torus_address x_s y_s /\ destination = torus_address x_d y_d
       else
         exists s d,
           field_int row 1 s /\ field_int row 2 d
           /\ source = ring_address s /\ destination = ring_address d.

Lemma read_row_returns network_type lst counter row lst' counter' :
  read_row int_value network_type (lst, counter) row = Return (lst', counter') ->
  exists entry, lst' = lst ++ [entry] /\ counter' = counter + 1
    /\ reads_row network_type counter row entry.
Proof.
  unfold read_row, int, reads_row, field_int. lookup_fields row.
  intros Hrow.
  destruct (bool_decide (network_type ∈ torus_types));
    repeat (case_match; simpl in Hrow; try discriminate Hrow);
    simplify_eq; eauto 30.
Qed.

Lemma read_row_reads network_type lst counter row entry :
  reads_row network_type counter row entry ->
  read_row int_value network_type (lst, counter) row
  = Return (lst ++ [entry], counter + 1).
Proof.
  unfold read_row, int, reads_row, field_int. lookup_fields row.
  intros (timestamp & source & destination & -> & (f0 & H0 & Hi0) & Haddr).
  destruct (bool_decide (network_type ∈ torus_types)).
  - destruct Haddr as (x_s & y_s & x_d & y_d & (f1 & ? & ?) & (f2 & ? & ?)
                       & (f3 & ? & ?) & (f4 & ? & ?) & -> & ->).
    by repeat match goal with H : _ = Some _ |- _ => rewrite H; clear H; simpl end.
  - destruct Haddr as (s & d & (f1 & ? & ?) & (f2 & ? & ?) & -> & ->).
    by repeat match goal with H : _ = Some _ |- _ => rewrite H; clear H; simpl end.
Qed.

(** A row with too few fields, all of them integers, runs off its end. *)
Lemma read_row_short network_type acc row :
  Forall (fun field => is_Some (int_value field)) row ->
  (length row < if bool_decide (network_type ∈ torus_types) then 5 else 3)%nat ->
  read_row int_value network_type acc row = Raise IndexError.
Proof.
  intros Hints Hlen. destruct acc as [lst counter].
  unfold read_row, int. lookup_fields row.
  destruct (bool_decide (network_type ∈ torus_types));
    (destruct row as [|f0 [|f1 [|f2 [|f3 [|f4 row]]]]]; simpl in Hlen; try lia);
    repeat (apply Forall_cons in Hints as [[? ?] Hints]); simpl;
    by repeat match goal with H : _ = Some _ |- _ => rewrite H; clear H; simpl end.
Qed.

Lemma for_in_app {A Acc} (l1 l2 : list A) (body : Acc -> A -> Result Acc) (acc : Acc) :
  for_in (l1 ++ l2) body acc = acc' ← for_in l1 body acc; for_in l2 body acc'.
Proof.
  revert acc. induction l1 as [|x l1 IH]; intros acc; simpl; [done|].
  destruct (body acc x) as [acc'|e]; simpl; [apply IH|done].
Qed.

Lemma for_in_read_row network_type reader lst0 c0 lst c :
  for_in reader (read_row int_value network_type) (lst0, c0) = Return (lst, c) ->
  exists entries, lst = lst0 ++ entries
    /\ c = c0 + Z.of_nat (length reader)
    /\ length entries = length reader
    /\ forall (i : nat) row, reader !! i = Some row ->
         exists entry, entries !! i = Some entry
           /\ reads_row network_type (c0 + Z.of_nat i) row entry.
Proof.
  revert lst0 c0. induction reader as [|row reader IH]; intros lst0 c0; cbn [for_in].
  - intros [= <- <-]. exists []. rewrite app_nil_r.
    repeat split; [simpl; lia|]. intros i row Hi. by rewrite lookup_nil in Hi.
  - destruct (read_row int_value network_type (lst0, c0) row)
      as [[lst1 c1]|e] eqn:Hrow; cbn [mbind Result_bind]; [|done].
    apply read_row_returns in Hrow as (entry & -> & -> & Hentry).
    intros Hrest. apply IH in Hrest as (entries & -> & -> & Hlen & Hall).
    exists (entry :: entries). rewrite <- app_assoc. split; [done|].
    split; [simpl length; lia|]. split; [simpl; by rewrite Hlen|].
    intros [|i] row' Hi; simpl in Hi.
    + injection Hi as <-. exists entry. split; [done|]. by rewrite Z.add_0_r.
    + destruct (Hall i row' Hi) as (entry' & Hentry' & Hreads).
      exists entry'. split; [done|].
      by replace (c0 + Z.of_nat (S i)) with (c0 + 1 + Z.of_nat i) by lia.
Qed.

(** The class that the one-argument branch calls. *)
Lemma ring_torus_dispatch (name : string) (k : Z) :
  (if decide (name = "AlwaysRightRing"%string)
   then new "AlwaysRightRing" [k]
   else if decide (name = "ShortestPathRing"%string)
   then new "ShortestPathRing" [k]
   else if decide (name = "ShortestPathTorus"%string)
   then new "ShortestPathTorus" [k]
   else if decide (name = "GreedyChannelRing"%string)
   then new "GreedyChannelRing" [k]
   else if decide (name = "GreedyChannelTorus"%string)
   then new "GreedyChannelTorus" [k]
   else if decide (name = "GreedyPathRing"%string)
   then new "GreedyPathRing" [k]
   else new "GreedyPathTorus" [k])
  = new (if bool_decide (name ∈ ring_torus_types)
         then name else "GreedyPathTorus"%string) [k].
Proof.
  repeat (destruct (decide (name = _)) as [->|?]; [reflexivity|]).
  case_bool_decide as Hknown; [|done].
  unfold ring_torus_types in Hknown.
  repeat (apply elem_of_cons in Hknown as [->|Hknown]); try done.
  by apply not_elem_of_nil in Hknown.
Qed.

(** The class that the two-argument branch calls. *)
Lemma star_dispatch (name : string) (k1 k2 : Z) :
  name ∈ star_types ->
  (if decide (name = "GreedyChannelStar"%string)
   then new "GreedyChannelStar" [k1; k2]
   else if decide (name = "GreedyPathStar"%string)
   then new "GreedyPathStar" [k1; k2]
   else new "ShortestPathStar" [k1; k2])
  = new name [k1; k2].
Proof.
  intros Hstar.
  repeat (destruct (decide (name = _)) as [->|?]; [reflexivity|]).
  unfold star_types in Hstar.
  repeat (apply elem_of_cons in Hstar as [->|Hstar]); try done.
  by apply not_elem_of_nil in Hstar.
Qed.

Lemma read_network_returns header network_type net :
  read_network int_value new header = Return (network_type, net) ->
  header !! 0%nat = Some network_type
  /\ if bool_decide (network_type ∈ star_types) then
       exists k1 k2, field_int header 1 k1 /\ field_int header 2 k2
         /\ new network_type [k1; k2] = Return net
     else
       exists k, field_int header 1 k
         /\ new (if bool_decide (network_type ∈ ring_torus_types)
                 then network_type else "GreedyPathTorus"%string) [k] = Return net.
Proof.
  unfold read_network, int, field_int. lookup_fields header.
  destruct (header !! 0%nat) as [name|]; [|done]. cbn [mbind Result_bind].
  intros Hnet.
  destruct (decide (name ∈ star_types)) as [Hstar|Hstar].
  - rewrite bool_decide_eq_false_2 in Hnet by tauto.
    destruct (header !! 1%nat) as [f1|]; [|done]. cbn [mbind Result_bind] in Hnet.
    destruct (int_value f1) as [k1|] eqn:Hk1; [|done]. cbn [mbind Result_bind] in Hnet.
    destruct (header !! 2%nat) as [f2|]; [|done]. cbn [mbind Result_bind] in Hnet.
    destruct (int_value f2) as [k2|] eqn:Hk2; [|done]. cbn [mbind Result_bind] in Hnet.
    rewrite star_dispatch in Hnet by done.
    destruct (new name [k1; k2]) as [object|] eqn:Hnew; [|done].
    injection Hnet as -> ->. split; [done|].
    rewrite bool_decide_eq_true_2 by done. exists k1, k2.
    split; [by eexists|]. split; [by eexists|]. done.
  - rewrite bool_decide_eq_true_2 in Hnet by done.
    destruct (header !! 1%nat) as [f1|]; [|done]. cbn [mbind Result_bind] in Hnet.
    destruct (int_value f1) as [k|] eqn:Hk; [|done]. cbn [mbind Result_bind] in Hnet.
    rewrite ring_torus_dispatch in Hnet.
    destruct (new _ [k]) as [object|] eqn:Hnew; [|done].
    injection Hnet as -> ->. split; [done|].
    rewrite (bool_decide_eq_false_2 (network_type ∈ star_types)) by done. exists k.
    split; [by eexists|]. done.
Qed.

(** X16: when [read_packet_csv] returns, it returns one entry per row of
    the file, in the order of the rows; the packet of row [i] (from 0) has
    identifier [i] and the entry's timestamp is the integer in the row's
    first field. *)
Theorem read_packet_csv_packets header reader net lst :
  read_packet_csv int_value new header reader = Return (net, lst) ->
  length lst = length reader
  /\ forall (i : nat) row, reader !! i = Some row ->
       exists timestamp packet,
         lst !! i = Some (timestamp, packet)
         /\ identifier packet = Z.of_nat i
         /\ field_int row 0 timestamp.
Proof.
  unfold read_packet_csv. intros Hread.
  destruct (read_network int_value new header) as [[network_type object]|];
    [|done]. cbn [mbind Result_bind] in Hread.
  destruct (for_in reader _ _) as [[lst' c]|] eqn:Hloop; [|done].
  injection Hread as -> ->.
  apply for_in_read_row in Hloop as (entries & -> & _ & Hlen & Hrows).
  split; [done|]. intros i row Hi.
  destruct (Hrows i row Hi) as (entry & Hentry & ts & src & dst & -> & Hts & _).
  exists ts, (mkPacket (0 + Z.of_nat i) src dst). by rewrite Z.add_0_l.
Qed.

(** X17: the shape of the addresses follows the name in the header alone:
    under one of the three torus names a packet's source is the pair of the
    integers in fields 1 and 2 of its row and its destination the pair of
    those in fields 3 and 4; under every other name the source is the
    integer in field 1 and the destination the integer in field 2, whatever
    else the row holds. *)
Theorem read_packet_csv_addresses header reader net lst network_type
    (i : nat) row timestamp packet :
  read_packet_csv int_value new header reader = Return (net, lst) ->
  header !! 0%nat = Some network_type ->
  reader !! i = Some row ->
  lst !! i = Some (timestamp, packet) ->
  if bool_decide (network_type ∈ torus_types) then
    exists x_s y_s x_d y_d,
      field_int row 1 x_s /\ field_int row 2 y_s
      /\ field_int row 3 x_d /\ field_int row 4 y_d
      /\ source packet = torus_address x_s y_s
      /\ destination packet = torus_address x_d y_d
  else
    exists s d,
      field_int row 1 s /\ field_int row 2 d
      /\ source packet = ring_address s
      /\ destination packet = ring_address d.
Proof.
  unfold read_packet_csv. intros Hread Hname Hi Hentry.
  destruct (read_network int_value new header) as [[name object]|] eqn:Hnet;
    [|done]. cbn [mbind Result_bind] in Hread.
  apply read_network_returns in Hnet as [Hname' _].
  rewrite Hname in Hname'. injection Hname' as <-.
  destruct (for_in reader _ _) as [[lst' c]|] eqn:Hloop; [|done].
  injection Hread as -> ->.
  apply for_in_read_row in Hloop as (entries & -> & _ & Hlen & Hrows).
  destruct (Hrows i row Hi) as (entry & Hentry' & ts & src & dst & -> & _ & Haddr).
  rewrite app_nil_l in Hentry.
  rewrite Hentry in Hentry'. injection Hentry' as -> ->. exact Haddr.
Qed.

(** X18: when [read_packet_csv] returns, the network it returns was built
    from the header: under a star name, by the class of that name from the
    integers in fields 1 and 2; under one of the seven ring and torus names,
    by the class of that name from the integer in field 1; and under any
    other name, by [GreedyPathTorus] from the integer in field 1. *)
Theorem read_packet_csv_network header reader net lst :
  read_packet_csv int_value new header reader = Return (net, lst) ->
  exists network_type,
    header !! 0%nat = Some network_type
    /\ if bool_decide (network_type ∈ star_types) then
         exists k1 k2, field_int header 1 k1 /\ field_int header 2 k2
           /\ new network_type [k1; k2] = Return net
       else
         exists k, field_int header 1 k
           /\ new (if bool_decide (network_type ∈ ring_torus_types)
                   then network_type else "GreedyPathTorus"%string) [k]
              = Return net.
Proof.
  unfold read_packet_csv. intros Hread.
  destruct (read_network int_value new header) as [[network_type object]|] eqn:Hnet;
    [|done]. cbn [mbind Result_bind] in Hread.
  destruct (for_in reader _ _) as [[lst' c]|]; [|done].
  injection Hread as -> ->.
  exists network_type. by apply read_network_returns.
Qed.

(** X19: after rows that were read, a row whose fields are all integers but
    which has fewer than three of them (five under a torus name), a blank
    line among them, makes [read_packet_csv] raise [IndexError], whatever
    follows it. *)
Theorem read_packet_csv_short_row header reader net lst network_type row rest :
  read_packet_csv int_value new header reader = Return (net, lst) ->
  header !! 0%nat = Some network_type ->
  Forall (fun field => is_Some (int_value field)) row ->
  (length row < if bool_decide (network_type ∈ torus_types) then 5 else 3)%nat ->
  read_packet_csv int_value new header (reader ++ row :: rest) = Raise IndexError.
Proof.
  unfold read_packet_csv. intros Hread Hname Hints Hlen.
  destruct (read_network int_value new header) as [[name object]|] eqn:Hnet;
    [|done]. cbn [mbind Result_bind] in *.
  apply read_network_returns in Hnet as [Hname' _].
  rewrite Hname in Hname'. injection Hname' as <-.
  rewrite for_in_app.
  destruct (for_in reader _ _) as [acc|]; [|done].
  cbn [mbind Result_bind for_in]. by rewrite read_row_short.
Qed.

(** X20: a file that was read stays read when one more well-formed row is
    appended: the result gains one entry, whose packet takes the number of
    earlier rows as identifier and its addresses from the new row. *)
Theorem read_packet_csv_append header reader net lst network_type row timestamp :
  read_packet_csv int_value new header reader = Return (net, lst) ->
  header !! 0%nat = Some network_type ->
  field_int row 0 timestamp ->
  (forall s d,
     network_type ∉ torus_types -> field_int row 1 s -> field_int row 2 d ->
     read_packet_csv int_value new header (reader ++ [row])
     = Return (net, lst ++ [(timestamp, mkPacket (Z.of_nat (length reader))
                                          (ring_address s) (ring_address d))]))
  /\ (forall x_s y_s x_d y_d,
        network_type ∈ torus_types ->
        field_int row 1 x_s -> field_int row 2 y_s ->
        field_int row 3 x_d -> field_int row 4 y_d ->
        read_packet_csv int_value new header (reader ++ [row])
        = Return (net, lst ++ [(timestamp, mkPacket (Z.of_nat (length reader))
                                             (torus_address x_s y_s)
                                             (torus_address x_d y_d))])).
Proof.
  unfold read_packet_csv. intros Hread Hname Hts.
  destruct (read_network int_value new header) as [[name object]|] eqn:Hnet;
    [|done]. cbn [mbind Result_bind] in *.
  apply read_network_returns in Hnet as [Hname' _].
  rewrite Hname in Hname'. injection Hname' as <-.
  destruct (for_in reader _ _) as [[lst' c]|] eqn:Hloop; [|done].
  injection Hread as -> ->.
  pose proof Hloop as Hcount.
  apply for_in_read_row in Hcount as (entries & _ & Hc & _).
  rewrite Z.add_0_l in Hc. subst c.
  split.
  - intros s d Hring H1 H2. rewrite for_in_app, Hloop.
    cbn [mbind Result_bind for_in]. erewrite read_row_reads; [done|].
    exists timestamp, (ring_address s), (ring_address d).
    split; [done|]. split; [done|].
    rewrite bool_decide_eq_false_2 by done. by exists s, d.
  - intros x_s y_s x_d y_d Htorus H1 H2 H3 H4. rewrite for_in_app, Hloop.
    cbn [mbind Result_bind for_in]. erewrite read_row_reads; [done|].
    exists timestamp, (torus_address x_s y_s), (torus_address x_d y_d).
    split; [done|]. split; [done|].
    rewrite bool_decide_eq_true_2 by done. by exists x_s, y_s, x_d, y_d.
Qed.
(** Rows read under a name that is not a torus name. *)
Lemma for_in_read_row_ring network_type reader lst0 c0 :
  network_type ∉ torus_types ->
  Forall (fun row => exists timestamp s d,
            field_int row 0 timestamp /\ field_int row 1 s /\ field_int row 2 d)
    reader ->
  exists entries,
    for_in reader (read_row int_value network_type) (lst0, c0)
    = Return (lst0 ++ entries, c0 + Z.of_nat (length reader))
    /\ Forall (fun entry : Z * Packet NodeAddress =>
                 exists s d, source entry.2 = ring_address s
                   /\ destination entry.2 = ring_address d) entries.
Proof.
  intros Hring Hrows. revert lst0 c0.
  induction Hrows as [|row reader (timestamp & s & d & H0 & H1 & H2) _ IH];
    intros lst0 c0; cbn [for_in].
  - exists []. rewrite app_nil_r, Z.add_0_r. by split.
  - erewrite (read_row_reads network_type lst0 c0 row
                (timestamp, mkPacket c0 (ring_address s) (ring_address d))); cycle 1.
    { exists timestamp, (ring_address s), (ring_address d).
      split; [done|]. split; [done|].
      rewrite bool_decide_eq_false_2 by done. by exists s, d. }
    cbn [mbind Result_bind].
    destruct (IH (lst0 ++ [(timestamp, mkPacket c0 (ring_address s) (ring_address d))])
                (c0 + 1)) as (entries & Hrun & Hall).
    exists ((timestamp, mkPacket c0 (ring_address s) (ring_address d)) :: entries).
    rewrite Hrun, <- app_assoc. split.
    + do 2 f_equal. simpl length. lia.
    + apply Forall_cons. split; [by exists s, d|done].
Qed.

(** X21: a name that is none of the ten class names is not rejected: the
    header is read as that of a one-argument class and the network built is
    a [GreedyPathTorus], while the rows are read as rows of a ring or star,
    so that the packets returned with this torus carry plain integers, not
    pairs, as addresses. *)
Theorem read_packet_csv_unknown_type header reader network_type k net :
  header !! 0%nat = Some network_type ->
  network_type ∉ star_types ++ ring_torus_types ->
  field_int header 1 k ->
  new "GreedyPathTorus" [k] = Return net ->
  Forall (fun row => exists timestamp s d,
            field_int row 0 timestamp /\ field_int row 1 s /\ field_int row 2 d)
    reader ->
  exists lst,
    read_packet_csv int_value new header reader = Return (net, lst)
    /\ length lst = length reader
    /\ Forall (fun entry : Z * Packet NodeAddress =>
                 exists s d, source entry.2 = ring_address s
                   /\ destination entry.2 = ring_address d) lst.
Proof.
  intros Hname Hunknown (f1 & Hf1 & Hk) Hnew Hrows.
  apply not_elem_of_app in Hunknown as [Hstar Hknown].
  assert (network_type ∉ torus_types) as Hring.
  { intros Htorus. apply Hknown. unfold torus_types in Htorus.
    unfold ring_torus_types.
    repeat (apply elem_of_cons in Htorus as [->|Htorus]);
      [set_solver..|by apply not_elem_of_nil in Htorus]. }
  unfold read_packet_csv, read_network, int. lookup_fields header.
  rewrite Hname. cbn [mbind Result_bind].
  rewrite bool_decide_eq_true_2 by done.
  rewrite Hf1. cbn [mbind Result_bind]. rewrite Hk. cbn [mbind Result_bind].
  rewrite ring_torus_dispatch, (bool_decide_eq_false_2 _ Hknown), Hnew.
  cbn [mbind Result_bind].
  destruct (for_in_read_row_ring network_type reader [] 0 Hring Hrows)
    as (entries & Hrun & Hall).
  unfold int in Hrun. rewrite Hrun. cbn [mbind Result_bind].
  exists entries. split; [done|]. split; [|done].
  apply for_in_read_row in Hrun as (entries' & Heq & _ & Hlen & _).
  simpl in Heq. by subst.
Qed.
End ReadPacketCsvFacts.

(** Stand-ins for the witnesses: [decimal] reads plain decimal numerals as
    [int] does, and [described] records the class called and its
    arguments. *)
Definition decimal (s : string) : option Z :=
  Z.of_uint <$> NilZero.uint_of_string s.

Definition described (cls : string) (args : list Z) : Result (string * list Z) :=
  Return (cls, args).

Definition ring_header : list string := ["AlwaysRightRing"; "5"]%string.
Definition ring_rows : list (list string) := [["0"; "0"; "4"]; ["3"; "1"; "2"]]%string.
Definition ring_entries : list (Z * Packet NodeAddress) :=
  [(0, mkPacket 0 (ring_address 0) (ring_address 4));
   (3, mkPacket 1 (ring_address 1) (ring_address 2))].

Definition torus_header : list string := ["GreedyChannelTorus"; "3"]%string.
Definition torus_rows : list (list string) := [["2"; "0"; "0"; "1"; "2"]]%string.
Definition torus_entries : list (Z * Packet NodeAddress) :=
  [(2, mkPacket 0 (torus_address 0 0) (torus_address 1 2))].

Lemma read_packet_csv_packets_witness :
  length ring_entries = length ring_rows
  /\ forall (i : nat) row, ring_rows !! i = Some row ->
       exists timestamp packet,
         ring_entries !! i = Some (timestamp, packet)
         /\ identifier packet = Z.of_nat i
         /\ field_int decimal row 0 timestamp.
Proof.
  apply (read_packet_csv_packets decimal described ring_header ring_rows
           ("AlwaysRightRing"%string, [5])).
  vm_compute. reflexivity.
Defined.

Lemma read_packet_csv_addresses_witness :
  exists x_s y_s x_d y_d,
    field_int decimal ["2"; "0"; "0"; "1"; "2"]%string 1 x_s
    /\ field_int decimal ["2"; "0"; "0"; "1"; "2"]%string 2 y_s
    /\ field_int decimal ["2"; "0"; "0"; "1"; "2"]%string 3 x_d
    /\ field_int decimal ["2"; "0"; "0"; "1"; "2"]%string 4 y_d
    /\ source (mkPacket 0 (torus_address 0 0) (torus_address 1 2)) = torus_address x_s y_s
    /\ destination (mkPacket 0 (torus_address 0 0) (torus_address 1 2))
       = torus_address x_d y_d.
Proof.
  apply (read_packet_csv_addresses decimal described torus_header torus_rows
           ("GreedyChannelTorus"%string, [3]) torus_entries
           "GreedyChannelTorus"%string 0%nat ["2"; "0"; "0"; "1"; "2"]%string 2
           (mkPacket 0 (torus_address 0 0) (torus_address 1 2)));
    vm_compute; reflexivity.
Defined.

Lemma read_packet_csv_network_witness :
  exists network_type,
    ["Mesh"; "4"]%string !! 0%nat = Some network_type
    /\ if bool_decide (network_type ∈ star_types) then
         exists k1 k2, field_int decimal ["Mesh"; "4"]%string 1 k1
           /\ field_int decimal ["Mesh"; "4"]%string 2 k2
           /\ described network_type [k1; k2] = Return ("GreedyPathTorus"%string, [4])
       else
         exists k, field_int decimal ["Mesh"; "4"]%string 1 k
           /\ described (if bool_decide (network_type ∈ ring_torus_types)
                         then network_type else "GreedyPathTorus"%string) [k]
              = Return ("GreedyPathTorus"%string, [4]).
Proof.
  apply (read_packet_csv_network decimal described ["Mesh"; "4"]%string ring_rows
           ("GreedyPathTorus"%string, [4]) ring_entries).
  vm_compute. reflexivity.
Defined.

Lemma read_packet_csv_short_row_witness :
  read_packet_csv decimal described ring_header (ring_rows ++ [] :: [["5"; "2"; "3"]%string])
  = Raise IndexError.
Proof.
  apply (read_packet_csv_short_row decimal described ring_header ring_rows
           ("AlwaysRightRing"%string, [5]) ring_entries "AlwaysRightRing"%string
           [] [["5"; "2"; "3"]%string]).
  - vm_compute. reflexivity.
  - reflexivity.
  - apply Forall_nil_2.
  - vm_compute. lia.
Defined.

Lemma read_packet_csv_append_witness :
  (forall s d,
     "AlwaysRightRing"%string ∉ torus_types ->
     field_int decimal ["5"; "2"; "3"]%string 1 s ->
     field_int decimal ["5"; "2"; "3"]%string 2 d ->
     read_packet_csv decimal described ring_header (ring_rows ++ [["5"; "2"; "3"]%string])
     = Return (("AlwaysRightRing"%string, [5]),
               ring_entries ++ [(5, mkPacket (Z.of_nat (length ring_rows))
                                      (ring_address s) (ring_address d))]))
  /\ (forall x_s y_s x_d y_d,
        "AlwaysRightRing"%string ∈ torus_types ->
        field_int decimal ["5"; "2"; "3"]%string 1 x_s ->
        field_int decimal ["5"; "2"; "3"]%string 2 y_s ->
        field_int decimal ["5"; "2"; "3"]%string 3 x_d ->
        field_int decimal ["5"; "2"; "3"]%string 4 y_d ->
        read_packet_csv decimal described ring_header
          (ring_rows ++ [["5"; "2"; "3"]%string])
        = Return (("AlwaysRightRing"%string, [5]),
                  ring_entries ++ [(5, mkPacket (Z.of_nat (length ring_rows))
                                         (torus_address x_s y_s)
                                         (torus_address x_d y_d))])).
Proof.
  apply (read_packet_csv_append decimal described ring_header ring_rows
           ("AlwaysRightRing"%string, [5]) ring_entries "AlwaysRightRing"%string
           ["5"; "2"; "3"]%string 5).
  - vm_compute. reflexivity.
  - reflexivity.
  - eexists. split; vm_compute; reflexivity.
Defined.

Lemma read_packet_csv_unknown_type_witness :
  exists lst,
    read_packet_csv decimal described ["Mesh"; "4"]%string ring_rows
    = Return (("GreedyPathTorus"%string, [4]), lst)
    /\ length lst = length ring_rows
    /\ Forall (fun entry : Z * Packet NodeAddress =>
                 exists s d, source entry.2 = ring_address s
                   /\ destination entry.2 = ring_address d) lst.
Proof.
  apply (read_packet_csv_unknown_type decimal described ["Mesh"; "4"]%string ring_rows
           "Mesh"%string 4).
  - reflexivity.
  - apply (bool_decide_eq_false_1 ("Mesh"%string ∈ star_types ++ ring_torus_types)).
    vm_compute. reflexivity.
  - eexists. split; vm_compute; reflexivity.
  - reflexivity.
  - unfold ring_rows.
    repeat (apply Forall_cons; split;
            [do 3 eexists; repeat split; eexists; split; vm_compute; reflexivity|]).
    apply Forall_nil_2.
Defined.
